(** * Leader/follower teleoperation with record and replay

    A shallow embedding of [teleop_record_replay_sdk.py]: the file naming
    of the records directory ([next_path]), the bus I/O ([read_leader],
    [write_follower]), the polling loop ([robot_loop]) and the four
    console callbacks ([start_record], [stop_record], [replay],
    [quit_all]), followed by the properties of the specification that
    were checked against them.

    Conventions of the embedding.
    - Python [str] values are Rocq strings (byte sequences); names are
      compared bytewise, which is the code point order on UTF-8 text.
    - The records directory is a finite map from file names to file
      contents; [os.listdir] is the list of its keys.
    - The module-level globals are one record [globals]; a callback is a
      function from a [world] (globals, records directory, output so far)
      to an outcome and a world.  A Python exception leaves the writes
      done before it in place, exactly as the interpreter does.
    - Everything the program sends outwards (bus transactions, sleeps,
      status text, log lines) is appended to a trace of [event]s.
    - The servo bus is an input: one [bus] value answers the transactions
      of one tick.  The SDK builds the data of a two-byte read from two
      bytes, so the stores into the [int32] frame are exact.
    - The two threads are interleaved at the grain of one callback and
      one loop iteration.  [replay()] keeps the console thread until it
      returns; the loop iterations that fall inside it find the mode
      REPLAY and only sleep, so a schedule leaves them out.  Races inside
      a callback or inside an iteration are not modelled.
    - Paths are written with the separator ["/"]; no statement depends on
      the separator. *)

From Stdlib Require Import ZArith Lia Ascii String DecimalString.
From stdpp Require Import gmap strings list sorting.

Local Open Scope Z_scope.

(** ** Python values and builtins used by the program *)

Module Py.

(** The exceptions the modelled builtins can raise. *)
Inductive exn : Type :=
| ValueError   (* int() on a string that is not a decimal literal *)
| TypeError    (* np.save(None, ...) *)
| OSError.     (* np.load on a path that cannot be read as an array *)

Inductive res (A : Type) : Type :=
| Ret (a : A)
| Raise (e : exn).
Arguments Ret {A} a.
Arguments Raise {A} e.

Definition res_bind {A B} (r : res A) (k : A -> res B) : res B :=
  match r with
  | Ret a => k a
  | Raise e => Raise e
  end.

(** [s.startswith(p)] *)
Definition startswith (p s : string) : bool := String.prefix p s.

(** [s.endswith(p)] *)
Definition endswith (p s : string) : bool :=
  (String.length p <=? String.length s)%nat &&
  String.eqb (String.substring (String.length s - String.length p)
                               (String.length p) s) p.

(** [s[i:j]] for [0 <= i <= j]; out-of-range bounds are clipped. *)
Definition slice (i j : nat) (s : string) : string :=
  String.substring i (j - i) s.

(** Whitespace that [int()] strips from an ASCII string: the characters
    9 to 13 and the space. *)
Definition isspace (c : ascii) : bool :=
  let n := nat_of_ascii c in
  ((9 <=? n) && (n <=? 13) || (n =? 32))%nat.

Fixpoint lstrip (l : list ascii) : list ascii :=
  match l with
  | c :: l' => if isspace c then lstrip l' else l
  | [] => []
  end.

Definition strip (l : list ascii) : list ascii :=
  rev (lstrip (rev (lstrip l))).

(** Decimal digits with single underscores between digits. *)
Fixpoint digits (acc : Z) (after_digit : bool) (l : list ascii) : option Z :=
  match l with
  | [] => if after_digit then Some acc else None
  | c :: l' =>
      match Ascii.is_nat c with
      | Some d => digits (10 * acc + Z.of_nat d) true l'
      | None =>
          if Ascii.eqb c "_" && after_digit then digits acc false l'
          else None
      end
  end.

(** [int(s)] in base 10: surrounding whitespace, an optional sign, then
    digits.  Anything else raises [ValueError]. *)
Definition int (s : string) : res Z :=
  let body :=
    match strip (list_ascii_of_string s) with
    | c :: l' =>
        if Ascii.eqb c "-" then Z.opp <$> digits 0 false l'
        else if Ascii.eqb c "+" then digits 0 false l'
        else digits 0 false (c :: l')
    | [] => None
    end in
  match body with
  | Some z => Ret z
  | None => Raise ValueError
  end.

(** [str(n)] for a natural number. *)
Definition str_nat (n : nat) : string :=
  NilZero.string_of_uint (Nat.to_uint n).

Fixpoint zeros (k : nat) : string :=
  match k with
  | O => ""
  | S k' => String "0" (zeros k')
  end.

Definition zfill (w : nat) (s : string) : string :=
  zeros (w - String.length s) +:+ s.

(** [f"{z:03d}"]: zero padding to width three, the sign counted in. *)
Definition format_03d (z : Z) : string :=
  if z <? 0 then "-" +:+ zfill 2 (str_nat (Z.abs_nat z))
  else zfill 3 (str_nat (Z.to_nat z)).

(** [sorted(l)] on strings. *)
Definition sorted (l : list string) : list string :=
  merge_sort String.le l.

End Py.

Import Py.

(** ** Configuration constants *)

Definition JOINT_IDS : list Z := [1; 2; 3; 4; 5; 6].
Definition NUM_JOINTS : nat := 6.
Definition ADDR_PRESENT_POSITION : Z := 56.
Definition ADDR_GOAL_POSITION : Z := 42.
(** [DT = 0.02] seconds, kept in milliseconds. *)
Definition DT : Z := 20.
Definition RECORD_DIR : string := "records".

(** ** The records directory *)

(** A [.npy] file as the program writes it: a two-dimensional array of
    signed 32-bit integers, stored row-major with its shape.  Any other
    directory entry is [Unreadable]: [np.load] raises on it.  Arrays of
    another rank or element type are outside the model. *)
Inductive file : Type :=
| Npy (nrows ncols : nat) (data : list Z)
| Unreadable.

Abbreviation records := (gmap string file).

(** [os.listdir(RECORD_DIR)] *)
Definition os_listdir (d : records) : list string := elements (dom d).

(** [os.path.join(RECORD_DIR, f)] *)
Definition os_path_join (dir f : string) : string := dir +:+ "/" +:+ f.

(** The name inside the records directory that a path denotes, if any. *)
Definition in_record_dir (p : string) : option string :=
  let pre := RECORD_DIR +:+ "/" in
  if String.prefix pre p
  then Some (String.substring (String.length pre)
                              (String.length p - String.length pre) p)
  else None.

(** [os.path.basename(p)] for the paths the program builds. *)
Definition os_path_basename (p : string) : string :=
  match in_record_dir p with
  | Some f => f
  | None => p
  end.

(** [os.path.exists(p)] *)
Definition os_path_exists (d : records) (p : string) : bool :=
  match in_record_dir p with
  | Some f => bool_decide (is_Some (d !! f))
  | None => false
  end.

(** [next_path()] *)
Definition next_path (d : records) : res string :=
  let files :=
    sorted (List.filter (fun f => startswith "raw_" f && endswith ".npy" f)
                        (os_listdir d)) in
  res_bind
    (match last files with
     | Some f => res_bind (int (slice 4 7 f)) (fun n => Ret (n + 1))
     | None => Ret 0
     end)
    (fun idx => Ret (os_path_join RECORD_DIR ("raw_" +:+ format_03d idx +:+ ".npy"))).

(** [np.array(buffer, dtype=np.int32)]: the conversion to the element
    type, written as the two's complement wrap-around. *)
Definition int32 (z : Z) : Z := (z + 2 ^ 31) mod 2 ^ 32 - 2 ^ 31.

(** The frames are stacked into one array of shape [(len(buffer), n)],
    [n] the common frame length; frames of different lengths raise. *)
Definition np_array_int32 (buf : list (list Z)) : res file :=
  let n := match buf with q :: _ => length q | [] => O end in
  if forallb (fun q => Nat.eqb (length q) n) buf
  then Ret (Npy (length buf) n (int32 <$> concat buf))
  else Raise ValueError.

(** The rows of a row-major array of shape [(r, c)]. *)
Fixpoint rows_of (r c : nat) (data : list Z) : list (list Z) :=
  match r with
  | O => []
  | S r' => take c data :: rows_of r' c (drop c data)
  end.

(** [np.load(p)]: the array as the sequence of its rows, which is what
    [len(seq)] and [for q in seq] see.  The class of the exception
    raised on an entry that cannot be read is not modelled: [OSError]
    stands for whichever one [np.load] raises. *)
Definition np_load (d : records) (p : string) : res (list (list Z)) :=
  match in_record_dir p with
  | Some f =>
      match d !! f with
      | Some (Npy r c data) =>
          if Nat.eqb (length data) (r * c) then Ret (rows_of r c data)
          else Raise ValueError
      | Some Unreadable => Raise OSError
      | None => Raise OSError
      end
  | None => Raise OSError
  end.

(** [np.save(p, a)]: [".npy"] is appended to a name that lacks it; an
    existing file is replaced.  A path outside the records directory
    leaves the directory as it is. *)
Definition np_save (d : records) (p : option string) (a : file) : res records :=
  match p with
  | None => Raise TypeError
  | Some p =>
      match in_record_dir p with
      | Some f =>
          let f' := if endswith ".npy" f then f else f +:+ ".npy" in
          Ret (<[f' := a]> d)
      | None => Ret d
      end
  end.

(** ** Module-level state *)

Inductive Mode : Type := TELEOP | RECORD | REPLAY.

#[global] Instance Mode_eq_dec : EqDecision Mode.
Proof. solve_decision. Defined.

Record globals : Type := Globals {
  running : bool;
  mode : Mode;
  recording : bool;
  buffer : list (list Z);
  save_path : option string;
  last_saved : option string;
}.

Definition initial_globals : globals :=
  {| running := true; mode := TELEOP; recording := false;
     buffer := []; save_path := None; last_saved := None |}.

Definition set_running (v : bool) (g : globals) : globals :=
  {| running := v; mode := mode g; recording := recording g;
     buffer := buffer g; save_path := save_path g; last_saved := last_saved g |}.
Definition set_mode (v : Mode) (g : globals) : globals :=
  {| running := running g; mode := v; recording := recording g;
     buffer := buffer g; save_path := save_path g; last_saved := last_saved g |}.
Definition set_recording (v : bool) (g : globals) : globals :=
  {| running := running g; mode := mode g; recording := v;
     buffer := buffer g; save_path := save_path g; last_saved := last_saved g |}.
Definition set_buffer (v : list (list Z)) (g : globals) : globals :=
  {| running := running g; mode := mode g; recording := recording g;
     buffer := v; save_path := save_path g; last_saved := last_saved g |}.
Definition set_save_path (v : option string) (g : globals) : globals :=
  {| running := running g; mode := mode g; recording := recording g;
     buffer := buffer g; save_path := v; last_saved := last_saved g |}.
Definition set_last_saved (v : option string) (g : globals) : globals :=
  {| running := running g; mode := mode g; recording := recording g;
     buffer := buffer g; save_path := save_path g; last_saved := v |}.

(** ** Output events *)

Inductive port : Type := leader_port | follower_port.

Inductive event : Type :=
| TxRead (p : port) (id addr : Z)          (* packet.read2ByteTxRx *)
| TxWrite (p : port) (id addr data : Z)    (* packet.write2ByteTxRx *)
| Sleep (ms : Z)                           (* time.sleep *)
| StatusSet (s : string)                   (* status_var.set *)
| LogLine (s : string)                     (* log *)
| ClosePort (p : port)
| Destroy                                  (* root.destroy *)
| PrintLine (s : string).

(** The answers of the servo bus during one tick.  A read answers
    [(data, comm_result, error)], a write [(comm_result, error)];
    [comm_result = 0] is [COMM_SUCCESS]. *)
Record bus : Type := Bus {
  read2ByteTxRx : port -> Z -> Z -> Z * Z * Z;
  write2ByteTxRx : port -> Z -> Z -> Z -> Z * Z;
}.

Definition COMM_SUCCESS : Z := 0.

(** ** The monad of the callbacks *)

Record world : Type := World { g : globals; disk : records }.

Definition M (A : Type) : Type := world -> res A * world * list event.

Definition ret {A} (a : A) : M A := fun w => (Ret a, w, []).

Definition bind {A B} (m : M A) (k : A -> M B) : M B :=
  fun w =>
    match m w with
    | (Ret a, w', t) =>
        let '(r, w'', t') := k a w' in (r, w'', t ++ t')
    | (Raise e, w', t) => (Raise e, w', t)
    end.

Notation "x <- c1 ;; c2" := (bind c1 (fun x => c2))
  (at level 100, c1 at next level, right associativity).
Notation "c1 ;; c2" := (bind c1 (fun _ => c2))
  (at level 100, right associativity).

Definition emit (e : event) : M unit := fun w => (Ret tt, w, [e]).
Definition read_globals : M globals := fun w => (Ret (g w), w, []).
Definition read_disk : M records := fun w => (Ret (disk w), w, []).
Definition assign (f : globals -> globals) : M unit :=
  fun w => (Ret tt, {| g := f (g w); disk := disk w |}, []).
Definition write_disk (d : records) : M unit :=
  fun w => (Ret tt, {| g := g w; disk := d |}, []).
Definition lift {A} (r : res A) : M A := fun w => (r, w, []).

(** [log(msg)] *)
Definition log (msg : string) : M unit := emit (LogLine msg).

(** ** Bus I/O *)

(** [read_leader()]: the frame and the transactions issued.  The result
    and error codes of each read are dropped, as in the source. *)
Definition read_leader (b : bus) : list Z * list event :=
  fold_left
    (fun (acc : list Z * list event) (ix : nat * Z) =>
       let '(q, t) := acc in
       let '(i, dxl_id) := ix in
       let '(pos, _, _) :=
         read2ByteTxRx b leader_port dxl_id ADDR_PRESENT_POSITION in
       (<[i := pos]> q, t ++ [TxRead leader_port dxl_id ADDR_PRESENT_POSITION]))
    (imap (fun i dxl_id => (i, dxl_id)) JOINT_IDS)
    (replicate NUM_JOINTS 0, []).

(** [zip(JOINT_IDS, q)] stops at the shorter of the two. *)
Fixpoint zip_ids (ids : list Z) (q : list Z) : list (Z * Z) :=
  match ids, q with
  | i :: ids', v :: q' => (i, v) :: zip_ids ids' q'
  | _, _ => []
  end.

(** [write_follower(q)]: the answers of the bus are dropped. *)
Definition write_follower (b : bus) (q : list Z) : list event :=
  (fun iv : Z * Z =>
     let '(_, _) :=
       write2ByteTxRx b follower_port (fst iv) ADDR_GOAL_POSITION (snd iv) in
     TxWrite follower_port (fst iv) ADDR_GOAL_POSITION (snd iv))
  <$> zip_ids JOINT_IDS q.

Definition emit_all (t : list event) : M unit := fun w => (Ret tt, w, t).

(** ** The polling loop *)

(** One iteration of the body of [while running:] in [robot_loop]. *)
Definition robot_tick (b : bus) : M unit :=
  gl <- read_globals ;;
  if decide (mode gl = REPLAY) then emit (Sleep DT)
  else
    let '(q_leader, t) := read_leader b in
    emit_all t ;;
    emit_all (write_follower b q_leader) ;;
    gl <- read_globals ;;
    (if recording gl then assign (fun g => set_buffer (buffer g ++ [q_leader]) g)
     else ret tt) ;;
    emit (Sleep DT).

(** [robot_loop()], fed with the bus answers of the coming ticks; the
    loop leaves when [running] is found false. *)
Fixpoint robot_loop (bs : list bus) : M unit :=
  match bs with
  | [] => ret tt
  | b :: bs' =>
      gl <- read_globals ;;
      if running gl then robot_tick b ;; robot_loop bs' else ret tt
  end.

(** ** Console callbacks *)

Definition start_record : M unit :=
  gl <- read_globals ;;
  if recording gl then ret tt
  else
    assign (set_mode RECORD) ;;
    assign (set_recording true) ;;
    assign (set_buffer []) ;;
    d <- read_disk ;;
    p <- lift (next_path d) ;;
    assign (set_save_path (Some p)) ;;
    emit (StatusSet "● RECORDING") ;;
    log ("[RECORD] START → " +:+ os_path_basename p).

Definition stop_record : M unit :=
  gl <- read_globals ;;
  if negb (recording gl) then ret tt
  else
    assign (set_recording false) ;;
    assign (set_mode TELEOP) ;;
    emit (StatusSet "IDLE") ;;
    gl <- read_globals ;;
    (match buffer gl with
     | _ :: _ =>
         a <- lift (np_array_int32 (buffer gl)) ;;
         d <- read_disk ;;
         d' <- lift (np_save d (save_path gl) a) ;;
         write_disk d' ;;
         assign (set_last_saved (save_path gl)) ;;
         log ("[RECORD] SAVED (" +:+ str_nat (length (buffer gl)) +:+ " frames)")
     | [] => log "[RECORD] STOP (no frames)"
     end) ;;
    assign (set_buffer []).

(** The [for q in seq] loop of [replay()]; [bs k] answers the bus during
    frame [k]. *)
Fixpoint replay_frames (bs : nat -> bus) (k : nat) (seq : list (list Z)) : M unit :=
  match seq with
  | [] => ret tt
  | q :: seq' =>
      emit_all (write_follower (bs k) q) ;;
      emit (Sleep DT) ;;
      replay_frames bs (S k) seq'
  end.

(** [replay()] from [np.load(last_saved)] on. *)
Definition replay_play (bs : nat -> bus) : M unit :=
  gl <- read_globals ;;
  d <- read_disk ;;
  seq <- lift (match last_saved gl with
               | Some p => np_load d p
               | None => Raise TypeError
               end) ;;
  assign (set_mode REPLAY) ;;
  emit (StatusSet "▶ REPLAY") ;;
  log ("[REPLAY] " +:+ os_path_basename (default "" (last_saved gl)) +:+
       " (" +:+ str_nat (length seq) +:+ " frames)") ;;
  replay_frames bs 0 seq ;;
  assign (set_mode TELEOP) ;;
  emit (StatusSet "IDLE") ;;
  log "[REPLAY] DONE".

(** The candidates of the fallback in [replay()]: the sorted paths of
    the directory entries whose name starts with ["raw_"]. *)
Definition persisted_files (d : records) : list string :=
  sorted (os_path_join RECORD_DIR <$>
          List.filter (fun f => startswith "raw_" f) (os_listdir d)).

(** [replay()] below its first guard. *)
Definition replay_body (bs : nat -> bus) : M unit :=
  gl <- read_globals ;;
  d <- read_disk ;;
  if match last_saved gl with
     | None => true
     | Some p => negb (os_path_exists d p)
     end
  then
    match last (persisted_files d) with
    | None => log "[REPLAY] no recordings"
    | Some f => assign (set_last_saved (Some f)) ;; replay_play bs
    end
  else replay_play bs.

Definition replay (bs : nat -> bus) : M unit :=
  gl <- read_globals ;;
  if recording gl then log "[WARN] stop record before replay"
  else replay_body bs.

Definition quit_all : M unit :=
  assign (set_running false) ;;
  emit (Sleep 50) ;;
  emit (ClosePort leader_port) ;;
  emit (ClosePort follower_port) ;;
  emit Destroy ;;
  emit (PrintLine "[DONE]").

(** ** The two threads together

    The console thread runs one callback at a time; the polling thread
    runs [robot_loop].  A schedule interleaves them at the grain of one
    callback and one loop iteration.  An exception in a callback is
    reported by the GUI toolkit and the main loop goes on, so only the
    world and the output of a callback are kept. *)

Inductive command : Type :=
| CStartRecord
| CStopRecord
| CReplay (bs : nat -> bus)
| CQuit.

Inductive action : Type :=
| Tick (b : bus)
| Call (c : command).

Definition run_command (c : command) : M unit :=
  match c with
  | CStartRecord => start_record
  | CStopRecord => stop_record
  | CReplay bs => replay bs
  | CQuit => quit_all
  end.

(** One loop iteration of the polling thread: the test of [running] and
    the body. *)
Definition loop_iteration (b : bus) : M unit :=
  gl <- read_globals ;;
  if running gl then robot_tick b else ret tt.

Definition step (a : action) : M unit :=
  match a with
  | Tick b => loop_iteration b
  | Call c => run_command c
  end.

Definition world_of {A} (x : res A * world * list event) : world := x.1.2.
Definition trace_of {A} (x : res A * world * list event) : list event := x.2.
Definition result_of {A} (x : res A * world * list event) : res A := x.1.1.

Fixpoint run (sched : list action) (w : world) : world :=
  match sched with
  | [] => w
  | a :: sched' => run sched' (world_of (step a w))
  end.

Definition initial_world (d : records) : world :=
  {| g := initial_globals; disk := d |}.

Definition reachable (w : world) : Prop :=
  exists d sched, w = run sched (initial_world d).

(** ** Notions used in the statements *)

(** A world in the middle of a recording, and a bus on which every
    transaction succeeds. *)
Definition recording_world : world :=
  {| g := set_recording true (set_mode RECORD initial_globals); disk := ∅ |}.

Definition quiet_bus : bus :=
  {| read2ByteTxRx := fun _ _ _ => (0, 0, 0);
     write2ByteTxRx := fun _ _ _ _ => (0, 0) |}.

(** The register writes of one [write_follower(q)] call. *)
Definition frame_writes (q : list Z) : list event :=
  (fun iv : Z * Z => TxWrite follower_port iv.1 ADDR_GOAL_POSITION iv.2)
  <$> zip_ids JOINT_IDS q.

(** The register writes a frame [q] stands for, read off positions: the
    joint at position [i] of [JOINT_IDS] is commanded to the value at
    position [i] of [q], for the positions both have.  This does not go
    through the code's [zip]. *)
Definition joint_writes (q : list Z) : list event :=
  (fun i => TxWrite follower_port (nth i JOINT_IDS 0) ADDR_GOAL_POSITION
                    (nth i q 0))
  <$> seq 0 (Nat.min (length q) NUM_JOINTS).

(** What the [for q in seq] loop of [replay()] sends out. *)
Definition playback (seq : list (list Z)) : list event :=
  concat ((fun q => frame_writes q ++ [Sleep DT]) <$> seq).

Definition is_sleep (e : event) : bool :=
  match e with Sleep _ => true | _ => false end.
Definition is_follower_write (e : event) : bool :=
  match e with TxWrite follower_port _ _ _ => true | _ => false end.
Definition is_log (e : event) : bool :=
  match e with LogLine _ => true | _ => false end.

Definition replay_log (p : string) (seq : list (list Z)) : string :=
  "[REPLAY] " +:+ os_path_basename p +:+
  " (" +:+ str_nat (length seq) +:+ " frames)".

Definition replay_trace (p : string) (seq : list (list Z)) : list event :=
  [StatusSet "▶ REPLAY"; LogLine (replay_log p seq)] ++
  playback seq ++ [StatusSet "IDLE"; LogLine "[REPLAY] DONE"].

(** The target that [replay()] settles on. *)
Inductive replay_target (w : world) (p : string) : Prop :=
| target_last_saved :
    last_saved (g w) = Some p ->
    os_path_exists (disk w) p = true ->
    replay_target w p
| target_fallback :
    (last_saved (g w) = None \/
     exists p0, last_saved (g w) = Some p0 /\
                os_path_exists (disk w) p0 = false) ->
    last (persisted_files (disk w)) = Some p ->
    replay_target w p.

(** Worlds with one stored trajectory: two frames of six joints, and two
    frames of three. *)
Definition two_frames_world : world :=
  {| g := initial_globals;
     disk := {[ "raw_000.npy" := Npy 2 6 [1; 2; 3; 4; 5; 6; 7; 8; 9; 10; 11; 12] ]} |}.

Definition short_frames_world : world :=
  {| g := initial_globals;
     disk := {[ "raw_000.npy" := Npy 2 3 [10; 20; 30; 40; 50; 60] ]} |}.

(** The two results of [read_leader()]. *)
Definition leader_frame (b : bus) : list Z := (read_leader b).1.
Definition leader_reads (b : bus) : list event := (read_leader b).2.

(** A tick touches the buffer only. *)
Definition same_control (w w' : world) : Prop :=
  running (g w') = running (g w) /\ mode (g w') = mode (g w) /\
  recording (g w') = recording (g w) /\ save_path (g w') = save_path (g w) /\
  last_saved (g w') = last_saved (g w) /\ disk w' = disk w.

(** The globals after a [start_record()] that took effect. *)
Definition started (p : string) (gl : globals) : globals :=
  {| running := running gl; mode := RECORD; recording := true;
     buffer := []; save_path := Some p; last_saved := last_saved gl |}.

(** Worlds in the initial state over a directory with a name that
    [next_path()] cannot parse, and over one that holds the indices 999
    and 1000. *)
Definition backup_world : world :=
  {| g := initial_globals; disk := {[ "raw_backup.npy" := Unreadable ]} |}.

Definition overflow_world : world :=
  {| g := initial_globals;
     disk := {[ "raw_999.npy" := Npy 1 6 [1; 2; 3; 4; 5; 6];
                "raw_1000.npy" := Npy 1 6 [6; 5; 4; 3; 2; 1] ]} |}.

(** The invariant of the callbacks. *)
Definition flag_matches_mode (w : world) : Prop :=
  (recording (g w) = true <-> mode (g w) = RECORD) /\ mode (g w) <> REPLAY.

(** [replay()] with its first guard as the specification words it: the
    test is on the mode, not on the recording flag. *)
Definition replay_guarded_by_mode (bs : nat -> bus) : M unit :=
  gl <- read_globals ;;
  if decide (mode gl = RECORD) then log "[WARN] stop record before replay"
  else replay_body bs.

(** A tick with a failed transaction: some read of the leader, or some
    write of the frame to the follower, answers a result other than
    [COMM_SUCCESS]. *)
Definition read_fault (b : bus) : Prop :=
  exists id, id ∈ JOINT_IDS /\
    (read2ByteTxRx b leader_port id ADDR_PRESENT_POSITION).1.2 <> COMM_SUCCESS.

Definition write_fault (b : bus) : Prop :=
  exists id v, (id, v) ∈ zip_ids JOINT_IDS (leader_frame b) /\
    (write2ByteTxRx b follower_port id ADDR_GOAL_POSITION v).1 <> COMM_SUCCESS.

(** Joint 1 of the leader times out ([COMM_RX_TIMEOUT = -6], data 0);
    the other joints answer 2048. *)
Definition timeout_bus : bus :=
  {| read2ByteTxRx := fun _ id _ => if id =? 1 then (0, -6, 0) else (2048, 0, 0);
     write2ByteTxRx := fun _ _ _ _ => (0, 0) |}.

(** Further [replay()] calls, one after the other. *)
Definition replays (bss : list (nat -> bus)) (w : world) : world :=
  foldl (fun w bs => world_of (replay bs w)) w bss.

(** A world with two stored trajectories and no [last_saved]. *)
Definition two_files_world : world :=
  {| g := initial_globals;
     disk := {[ "raw_000.npy" := Npy 1 6 [1; 2; 3; 4; 5; 6];
                "raw_001.npy" := Npy 1 6 [6; 5; 4; 3; 2; 1] ]} |}.

Definition is_int32 (z : Z) : Prop := - 2 ^ 31 <= z < 2 ^ 31.

(** A recording of one frame about to be stopped. *)
Definition sample_frame : list Z := [2048; 10; -3; 65535; 0; 7].

Definition one_frame_world : world :=
  {| g := {| running := true; mode := RECORD; recording := true;
             buffer := [sample_frame];
             save_path := Some "records/raw_000.npy"; last_saved := None |};
     disk := ∅ |}.

(** The name [next_path()] builds for index [i]. *)
Definition raw_file (i : nat) : string :=
  "raw_" +:+ format_03d (Z.of_nat i) +:+ ".npy".

(** A directory whose [raw_*.npy] names all carry a three-digit index. *)
Definition three_digit_names (d : records) : Prop :=
  forall f, f ∈ dom d ->
    startswith "raw_" f = true -> endswith ".npy" f = true ->
    exists i, (i < 1000)%nat /\ f = raw_file i.

(** The index of the specification: one more than the largest index in
    [l] that satisfies [used], and 0 when there is none. *)
Definition next_after (used : nat -> bool) (l : list nat) : nat :=
  foldr (fun i acc => if used i then Nat.max (S i) acc else acc) 0%nat l.

(** [allocate_path()] of the specification, over the indices 0 to 999. *)
Definition allocate_index (d : records) : nat :=
  next_after (fun i => bool_decide (raw_file i ∈ dom d)) (seq 0 1000).

(** What is checked of each three-digit name by evaluation: its index
    parses back, it passes the filter of [next_path()], it has eleven
    characters, and it sorts before its successor. *)
Definition raw_file_check (i : nat) : bool :=
  match int (slice 4 7 (raw_file i)) with
  | Ret z => z =? Z.of_nat i
  | Raise _ => false
  end
  && startswith "raw_" (raw_file i) && endswith ".npy" (raw_file i)
  && Nat.eqb (String.length (raw_file i)) 11
  && ((i =? 999)%nat || String.leb (raw_file i) (raw_file (S i))).

(** Loop iterations in a row, one per bus answer. *)
Fixpoint ticks (bs : list bus) : M unit :=
  match bs with
  | [] => ret tt
  | b :: bs' => robot_tick b ;; ticks bs'
  end.

(** One recording: start, the ticks of the loop that fall in it, stop.
    It saves a file when at least one tick falls in it. *)
Definition record_once (bs : list bus) : M unit :=
  start_record ;; ticks bs ;; stop_record.

(** Recordings made one after the other, each given by the bus answers
    of its ticks; the paths they were saved under, in order, and the
    world at the end. *)
Fixpoint recordings (ss : list (list bus)) (w : world)
    : list (option string) * world :=
  match ss with
  | [] => ([], w)
  | bs :: ss' =>
      let w1 := world_of (record_once bs w) in
      let '(ps, w2) := recordings ss' w1 in
      (last_saved (g w1) :: ps, w2)
  end.

(** The names of the indices below [k]. *)
Definition names (k : nat) : gset string := list_to_set (raw_file <$> seq 0 k).

(** Sample directories. *)
Definition demo_dir : records :=
  <["raw_000.npy" := Unreadable]>
    (<["raw_007.npy" := Unreadable]> (<["notes.txt" := Unreadable]> ∅)).

Definition dir_of (fs : list string) : records :=
  list_to_map ((fun f => (f, Unreadable)) <$> fs).

(** ** Notions used in the further properties *)

(** The data a bus answers for the present position of a joint. *)
Definition leader_data (b : bus) (id : Z) : Z :=
  (read2ByteTxRx b leader_port id ADDR_PRESENT_POSITION).1.1.

(** A bus whose read data are two-byte words, as the SDK builds them. *)
Definition word_bus (b : bus) : Prop :=
  forall id, id ∈ JOINT_IDS -> 0 <= leader_data b id < 65536.

(** What one mirroring tick sends out, and what ticks in a row send. *)
Definition tick_trace (b : bus) : list event :=
  leader_reads b ++ frame_writes (leader_frame b) ++ [Sleep DT].

Definition ticks_trace (bs : list bus) : list event :=
  concat (tick_trace <$> bs).

(** The array that [stop_record()] stores for a buffer of frames. *)
Definition stored (T : list (list Z)) : file :=
  Npy (length T) NUM_JOINTS (int32 <$> concat T).

(** The line [stop_record()] logs after saving [n] frames. *)
Definition saved_log (n : nat) : string :=
  "[RECORD] SAVED (" +:+ str_nat n +:+ " frames)".

(** The filter of [next_path()]. *)
Definition counted (f : string) : bool :=
  startswith "raw_" f && endswith ".npy" f.

(** A path as [next_path()] builds it. *)
Definition built_path (p : string) : Prop :=
  exists z, p = os_path_join RECORD_DIR ("raw_" +:+ format_03d z +:+ ".npy").

(** A file as [stop_record()] writes it: an array with one column per
    joint, at least one row, as many elements as the shape says, all of
    them signed 32-bit. *)
Definition well_shaped (fl : file) : Prop :=
  match fl with
  | Npy r c data =>
      c = NUM_JOINTS /\ (1 <= r)%nat /\ length data = (r * c)%nat /\
      Forall is_int32 data
  | Unreadable => False
  end.

(** What the callbacks keep true of the globals and the directory [d0]
    the program started with. *)
Definition kept (d0 : records) (w : world) : Prop :=
  Forall (fun q => length q = NUM_JOINTS) (buffer (g w)) /\
  (forall p, save_path (g w) = Some p -> built_path p) /\
  (forall f fl, disk w !! f = Some fl ->
     d0 !! f = Some fl \/ counted f = true /\ well_shaped fl).

(** Sample worlds: a finished recording next to a name that
    [next_path()] cannot parse, and a recording next to an entry that
    [np.load] cannot read. *)
Definition stale_path_world : world :=
  {| g := {| running := true; mode := TELEOP; recording := false;
             buffer := []; save_path := Some "records/raw_000.npy";
             last_saved := Some "records/raw_000.npy" |};
     disk := {[ "raw_000.npy" := Npy 1 6 [1; 2; 3; 4; 5; 6];
                "raw_backup.npy" := Unreadable ]} |}.

Definition notes_world : world :=
  {| g := initial_globals;
     disk := {[ "raw_000.npy" := Npy 1 6 [1; 2; 3; 4; 5; 6];
                "raw_notes.txt" := Unreadable ]} |}.

Definition word_bus_a : bus :=
  {| read2ByteTxRx := fun _ id _ => (2000 + id, 0, 0);
     write2ByteTxRx := fun _ _ _ _ => (0, 0) |}.

(** A directory whose [raw_...] entries are all recordings with a
    three-digit index. *)
Definition only_recordings (d : records) : Prop :=
  forall f, f ∈ dom d -> startswith "raw_" f = true ->
    exists i, (i < 1000)%nat /\ f = raw_file i.

(** A directory that holds the recording of index 999. *)
Definition last_index_world : world :=
  {| g := initial_globals;
     disk := {[ "raw_999.npy" := Npy 1 6 [1; 2; 3; 4; 5; 6] ]} |}.

(** * Properties *)

(** ** Strings and paths *)

Lemma substring_all (s : string) : String.substring 0 (String.length s) s = s.
Proof. induction s as [|c s IH]; simpl; [reflexivity | by rewrite IH]. Qed.

Lemma prefix_append (s t : string) : String.prefix s (s +:+ t) = true.
Proof.
  induction s as [|c s IH]; [by destruct t|].
  change (String c s +:+ t) with (String c (s +:+ t)).
  cbn [String.prefix]. by destruct (ascii_dec c c).
Qed.

Lemma length_append (s t : string) :
  String.length (s +:+ t) = (String.length s + String.length t)%nat.
Proof.
  induction s as [|c s IH]; [reflexivity|].
  change (String c s +:+ t) with (String c (s +:+ t)).
  cbn [String.length]. by rewrite IH.
Qed.

Lemma substring_append (s t : string) :
  String.substring (String.length s) (String.length t) (s +:+ t) = t.
Proof.
  induction s as [|c s IH]; [apply substring_all|].
  change (String c s +:+ t) with (String c (s +:+ t)).
  cbn [String.length String.substring]. exact IH.
Qed.

Lemma in_record_dir_join (f : string) :
  in_record_dir (os_path_join RECORD_DIR f) = Some f.
Proof.
  unfold in_record_dir, os_path_join.
  change (RECORD_DIR +:+ "/" +:+ f) with ((RECORD_DIR +:+ "/") +:+ f).
  generalize (RECORD_DIR +:+ "/"). intros pre.
  rewrite prefix_append. f_equal.
  replace (String.length (pre +:+ f) - String.length pre)%nat
    with (String.length f) by (rewrite length_append; lia).
  apply substring_append.
Qed.

Lemma os_path_basename_join (f : string) :
  os_path_basename (os_path_join RECORD_DIR f) = f.
Proof. unfold os_path_basename. by rewrite in_record_dir_join. Qed.

Lemma os_path_exists_join (d : records) (f : string) :
  os_path_exists d (os_path_join RECORD_DIR f) = bool_decide (f ∈ dom d).
Proof.
  unfold os_path_exists. rewrite in_record_dir_join.
  apply bool_decide_ext. by rewrite elem_of_dom.
Qed.

Lemma os_path_join_inj (f1 f2 : string) :
  os_path_join RECORD_DIR f1 = os_path_join RECORD_DIR f2 -> f1 = f2.
Proof.
  intros H. apply (f_equal in_record_dir) in H.
  rewrite !in_record_dir_join in H. congruence.
Qed.

Lemma elem_of_os_listdir (d : records) (f : string) :
  f ∈ os_listdir d <-> f ∈ dom d.
Proof. unfold os_listdir. apply elem_of_elements. Qed.

(** ** Sorting *)

Lemma sorted_elem_of (l : list string) (x : string) : x ∈ sorted l <-> x ∈ l.
Proof. unfold sorted. by rewrite merge_sort_Permutation. Qed.

Lemma last_sorted_None (l : list string) : last (sorted l) = None -> l = [].
Proof.
  intros H. apply last_None in H.
  apply Permutation_nil_r. rewrite <- H. unfold sorted.
  symmetry. apply merge_sort_Permutation.
Qed.

Lemma last_sorted_Some (l : list string) (x : string) :
  last (sorted l) = Some x -> x ∈ l /\ forall y, y ∈ l -> String.le y x.
Proof.
  intros H. apply last_Some in H as [l' Hl'].
  assert (Hs : StronglySorted String.le (sorted l))
    by (unfold sorted; apply StronglySorted_merge_sort; apply _).
  split.
  - apply sorted_elem_of. rewrite Hl'. set_solver.
  - intros y Hy. apply sorted_elem_of in Hy. rewrite Hl' in Hy, Hs.
    apply elem_of_app in Hy as [Hy | Hy].
    + eapply StronglySorted_app_1_elem_of; [exact Hs | exact Hy | set_solver].
    + apply list_elem_of_singleton in Hy as ->. reflexivity.
Qed.

Lemma filter_nil_of_false {A} (f : A -> bool) (l : list A) :
  (forall x, x ∈ l -> f x = false) -> List.filter f l = [].
Proof.
  induction l as [|a l IH]; intros H; simpl; [reflexivity|].
  rewrite (H a) by set_solver. apply IH. intros x Hx. apply H. set_solver.
Qed.

Lemma elem_of_List_filter {A} (f : A -> bool) (l : list A) (x : A) :
  x ∈ List.filter f l <-> x ∈ l /\ f x = true.
Proof. rewrite !list_elem_of_In. apply filter_In. Qed.

(** ** Running the callbacks *)

Arguments next_path : simpl never.
Arguments np_load : simpl never.
Arguments np_save : simpl never.
Arguments np_array_int32 : simpl never.
Arguments persisted_files : simpl never.
Arguments os_path_exists : simpl never.
Arguments os_path_basename : simpl never.
Arguments read_leader : simpl never.
Arguments write_follower : simpl never.
Arguments replay_play : simpl never.
Arguments replay_body : simpl never.
Arguments str_nat : simpl never.

Ltac run_monad :=
  unfold bind, ret, emit, emit_all, read_globals, read_disk, assign,
         write_disk, lift, log; cbn [g disk].

Lemma triple_eta {A} (x : res A * world * list event) :
  (let '(r, w, t) := x in (r, w, t)) = x.
Proof. by destruct x as [[] ?]. Qed.

Lemma world_eta (w : world) : {| g := g w; disk := disk w |} = w.
Proof. by destruct w. Qed.

(** The entries a fallback of [replay()] can pick. *)
Lemma persisted_files_None (d : records) :
  (forall f, f ∈ dom d -> startswith "raw_" f = false) ->
  last (persisted_files d) = None.
Proof.
  intros H. unfold persisted_files.
  rewrite (filter_nil_of_false _ (os_listdir d)); [reflexivity|].
  intros f Hf. apply H. by apply elem_of_os_listdir.
Qed.

Lemma persisted_files_Some (d : records) (p : string) :
  last (persisted_files d) = Some p ->
  exists f, p = os_path_join RECORD_DIR f /\ f ∈ dom d /\
            startswith "raw_" f = true /\
            forall f', f' ∈ dom d -> startswith "raw_" f' = true ->
                       String.le (os_path_join RECORD_DIR f') p.
Proof.
  intros H. apply last_sorted_Some in H as [Hin Hmax].
  apply list_elem_of_fmap in Hin as (f & -> & Hf).
  apply elem_of_List_filter in Hf as [Hf Hraw].
  exists f. split; [reflexivity|]. split; [by apply elem_of_os_listdir|].
  split; [exact Hraw|].
  intros f' Hf' Hraw'. apply Hmax. apply list_elem_of_fmap.
  exists f'. split; [reflexivity|]. apply elem_of_List_filter.
  split; [by apply elem_of_os_listdir | exact Hraw'].
Qed.

(** C3, as the code has it: [stop_record()] when not recording changes
    nothing and logs nothing at all; [replay()] while recording changes
    nothing and logs exactly one warning line. *)
Theorem noop_safety (w : world) (bs : nat -> bus) :
  (recording (g w) = false -> stop_record w = (Ret tt, w, [])) /\
  (recording (g w) = true ->
   replay bs w = (Ret tt, w, [LogLine "[WARN] stop record before replay"])).
Proof.
  split; intros H.
  - unfold stop_record. run_monad. by rewrite H.
  - unfold replay. run_monad. by rewrite H.
Qed.

Lemma noop_safety_witness :
  stop_record (initial_world ∅) = (Ret tt, initial_world ∅, []) /\
  replay (fun _ => quiet_bus) recording_world =
    (Ret tt, recording_world, [LogLine "[WARN] stop record before replay"]).
Proof.
  split.
  - apply (noop_safety (initial_world ∅) (fun _ => quiet_bus)). reflexivity.
  - apply (noop_safety recording_world (fun _ => quiet_bus)). reflexivity.
Defined.

(** C3 as the specification words it fails: [stop_record()] in the
    initial state emits no log line, not one. *)
Lemma stop_record_idle_logs_nothing :
  recording (g (initial_world ∅)) = false /\
  trace_of (stop_record (initial_world ∅)) = [] /\
  length (trace_of (stop_record (initial_world ∅))) <> 1%nat.
Proof. vm_compute. repeat split; discriminate. Qed.

(** C4: with no usable [last_saved] and no entry named [raw_...] in the
    records directory, [replay()] logs one line, writes nothing to the
    follower and leaves every global, the mode included, as it was. *)
Theorem replay_no_recordings (w : world) (bs : nat -> bus) :
  recording (g w) = false ->
  (last_saved (g w) = None \/
   exists p, last_saved (g w) = Some p /\ os_path_exists (disk w) p = false) ->
  (forall f, f ∈ dom (disk w) -> startswith "raw_" f = false) ->
  replay bs w = (Ret tt, w, [LogLine "[REPLAY] no recordings"]).
Proof.
  intros Hrec Hls Hnone. unfold replay, replay_body. run_monad.
  rewrite Hrec, (persisted_files_None _ Hnone).
  destruct Hls as [-> | (p & -> & ->)]; reflexivity.
Qed.

Lemma replay_no_recordings_witness :
  replay (fun _ => quiet_bus) (initial_world ∅) =
    (Ret tt, initial_world ∅, [LogLine "[REPLAY] no recordings"]).
Proof.
  apply (replay_no_recordings (initial_world ∅) (fun _ => quiet_bus)).
  - reflexivity.
  - left. reflexivity.
  - intros f Hf. apply elem_of_dom in Hf as [x Hx]. cbn in Hx.
    by rewrite lookup_empty in Hx.
Defined.

(** ** Playback *)

Arguments frame_writes : simpl never.

Lemma playback_cons (q : list Z) (seq : list (list Z)) :
  playback (q :: seq) = frame_writes q ++ Sleep DT :: playback seq.
Proof. unfold playback. cbn. by rewrite <- app_assoc. Qed.

Lemma write_follower_eq (b : bus) (q : list Z) :
  write_follower b q = frame_writes q.
Proof.
  unfold write_follower, frame_writes. apply list_fmap_ext.
  intros i [id v] _. cbn. by destruct (write2ByteTxRx b _ _ _ _).
Qed.

Lemma zip_ids_positions (ids q : list Z) :
  zip_ids ids q =
    (fun i => (nth i ids 0, nth i q 0))
    <$> seq 0 (Nat.min (length q) (length ids)).
Proof.
  revert q. induction ids as [|a ids IH]; intros [|v q]; try reflexivity.
  cbn [zip_ids length Nat.min seq fmap list_fmap nth]. f_equal.
  rewrite IH, <- fmap_S_seq, <- list_fmap_compose. reflexivity.
Qed.

Lemma frame_writes_positions (q : list Z) : frame_writes q = joint_writes q.
Proof.
  unfold frame_writes, joint_writes. rewrite zip_ids_positions.
  rewrite <- list_fmap_compose. reflexivity.
Qed.

Lemma joint_writes_full (q : list Z) :
  length q = NUM_JOINTS ->
  joint_writes q =
    [TxWrite follower_port 1 ADDR_GOAL_POSITION (nth 0 q 0);
     TxWrite follower_port 2 ADDR_GOAL_POSITION (nth 1 q 0);
     TxWrite follower_port 3 ADDR_GOAL_POSITION (nth 2 q 0);
     TxWrite follower_port 4 ADDR_GOAL_POSITION (nth 3 q 0);
     TxWrite follower_port 5 ADDR_GOAL_POSITION (nth 4 q 0);
     TxWrite follower_port 6 ADDR_GOAL_POSITION (nth 5 q 0)].
Proof. intros H. unfold joint_writes. rewrite H. reflexivity. Qed.

Lemma playback_positions (seq : list (list Z)) :
  playback seq = concat ((fun q => joint_writes q ++ [Sleep DT]) <$> seq).
Proof.
  unfold playback. f_equal. apply list_fmap_ext.
  intros i q _. by rewrite frame_writes_positions.
Qed.

Lemma replay_frames_spec (bs : nat -> bus) (seq : list (list Z)) :
  forall (k : nat) (w : world),
    replay_frames bs k seq w = (Ret tt, w, playback seq).
Proof.
  induction seq as [|q seq IH]; intros k w; [reflexivity|].
  cbn [replay_frames]. run_monad. rewrite (IH (S k) w), write_follower_eq.
  by rewrite playback_cons.
Qed.

Lemma replay_play_spec (bs : nat -> bus) (w : world) (p : string)
    (seq : list (list Z)) :
  last_saved (g w) = Some p ->
  np_load (disk w) p = Ret seq ->
  replay_play bs w =
    (Ret tt, {| g := set_mode TELEOP (g w); disk := disk w |},
     replay_trace p seq).
Proof.
  intros Hls Hload. unfold replay_play. run_monad.
  rewrite Hls, Hload. cbn. rewrite replay_frames_spec. cbn.
  unfold replay_trace, replay_log. cbn. reflexivity.
Qed.

Lemma replay_play_raise (bs : nat -> bus) (w : world) (p : string) (e : exn) :
  last_saved (g w) = Some p ->
  np_load (disk w) p = Raise e ->
  replay_play bs w = (Raise e, w, []).
Proof.
  intros Hls Hload. unfold replay_play. run_monad. by rewrite Hls, Hload.
Qed.

Lemma replay_body_target (bs : nat -> bus) (w : world) (p : string) :
  replay_target w p ->
  replay_body bs w =
    let w' := {| g := set_last_saved (Some p) (g w); disk := disk w |} in
    replay_play bs w'.
Proof.
  intros [Hls Hex | Hls Hlast]; unfold replay_body; run_monad.
  - rewrite Hls, Hex. cbn.
    replace (set_last_saved (Some p) (g w)) with (g w)
      by (destruct w as [[] ?]; cbn in *; by subst).
    by rewrite !triple_eta, world_eta.
  - rewrite Hlast.
    destruct Hls as [-> | (p0 & -> & ->)]; cbn; by rewrite !triple_eta.
Qed.

Lemma replay_spec (bs : nat -> bus) (w : world) (p : string)
    (seq : list (list Z)) :
  recording (g w) = false ->
  replay_target w p ->
  np_load (disk w) p = Ret seq ->
  replay bs w =
    (Ret tt,
     {| g := set_mode TELEOP (set_last_saved (Some p) (g w)); disk := disk w |},
     replay_trace p seq).
Proof.
  intros Hrec Ht Hload. unfold replay. run_monad. rewrite Hrec.
  rewrite (replay_body_target bs w p Ht). cbn zeta.
  by rewrite (replay_play_spec bs _ p seq).
Qed.

Lemma count_sleep_frame_writes (q : list Z) :
  List.filter is_sleep (frame_writes q) = [].
Proof.
  apply filter_nil_of_false. intros e He.
  unfold frame_writes in He. apply list_elem_of_fmap in He as (iv & -> & _).
  reflexivity.
Qed.

Lemma filter_write_frame_writes (q : list Z) :
  List.filter is_follower_write (frame_writes q) = frame_writes q.
Proof.
  unfold frame_writes. induction (zip_ids JOINT_IDS q) as [|iv l IH];
    [reflexivity|]. cbn. by rewrite IH.
Qed.

Lemma playback_sleeps (seq : list (list Z)) :
  length (List.filter is_sleep (playback seq)) = length seq.
Proof.
  induction seq as [|q seq IH]; [reflexivity|].
  rewrite playback_cons, List.filter_app, count_sleep_frame_writes.
  cbn. by rewrite IH.
Qed.

Lemma playback_writes (seq : list (list Z)) :
  List.filter is_follower_write (playback seq) = concat (frame_writes <$> seq).
Proof.
  induction seq as [|q seq IH]; [reflexivity|].
  rewrite playback_cons, List.filter_app, filter_write_frame_writes.
  cbn. by rewrite IH.
Qed.

Lemma replay_trace_filters (p : string) (seq : list (list Z)) :
  List.filter is_follower_write (replay_trace p seq) =
    concat (frame_writes <$> seq) /\
  length (List.filter is_sleep (replay_trace p seq)) = length seq.
Proof.
  unfold replay_trace. split.
  - cbn. rewrite List.filter_app, playback_writes. cbn. by rewrite app_nil_r.
  - cbn. rewrite List.filter_app, length_app, playback_sleeps. cbn. lia.
Qed.

(** C2: [replay()] of a stored trajectory of K frames sends the frames to
    the follower in order: for each frame the joint at position [i] of
    [JOINT_IDS] is commanded to the value at position [i] of the frame,
    and one sleep of a tick period follows the frame; then the mode is
    TELEOP and the status "IDLE".  With no frame nothing is written. *)
Theorem replay_writes_each_frame (bs : nat -> bus) (w : world) (p : string)
    (seq : list (list Z)) :
  recording (g w) = false ->
  replay_target w p ->
  np_load (disk w) p = Ret seq ->
  let out := replay bs w in
  result_of out = Ret tt /\
  mode (g (world_of out)) = TELEOP /\
  trace_of out =
    [StatusSet "▶ REPLAY"; LogLine (replay_log p seq)] ++
    concat ((fun q =>
               ((fun i => TxWrite follower_port (nth i JOINT_IDS 0)
                                  ADDR_GOAL_POSITION (nth i q 0))
                <$> List.seq 0 (Nat.min (length q) NUM_JOINTS)) ++ [Sleep DT])
            <$> seq) ++
    [StatusSet "IDLE"; LogLine "[REPLAY] DONE"] /\
  (Forall (fun q => length q = NUM_JOINTS) seq ->
   List.filter is_follower_write (trace_of out) =
     concat ((fun q =>
                [TxWrite follower_port 1 ADDR_GOAL_POSITION (nth 0 q 0);
                 TxWrite follower_port 2 ADDR_GOAL_POSITION (nth 1 q 0);
                 TxWrite follower_port 3 ADDR_GOAL_POSITION (nth 2 q 0);
                 TxWrite follower_port 4 ADDR_GOAL_POSITION (nth 3 q 0);
                 TxWrite follower_port 5 ADDR_GOAL_POSITION (nth 4 q 0);
                 TxWrite follower_port 6 ADDR_GOAL_POSITION (nth 5 q 0)])
             <$> seq)) /\
  length (List.filter is_sleep (trace_of out)) = length seq /\
  (seq = [] ->
   trace_of out =
     [StatusSet "▶ REPLAY"; LogLine (replay_log p []);
      StatusSet "IDLE"; LogLine "[REPLAY] DONE"]).
Proof.
  intros Hrec Ht Hload out. subst out.
  rewrite (replay_spec bs w p seq Hrec Ht Hload).
  unfold result_of, world_of, trace_of. cbn [fst snd].
  destruct (replay_trace_filters p seq) as [Hw Hs].
  split; [done|]. split; [done|]. split.
  { unfold replay_trace. by rewrite playback_positions. }
  split.
  { intros Hfull. rewrite Hw. f_equal.
    apply Forall_fmap_ext_1. eapply Forall_impl; [exact Hfull|].
    intros q Hq. cbn beta. by rewrite frame_writes_positions, joint_writes_full. }
  split; [exact Hs|].
  intros ->. reflexivity.
Qed.

Lemma replay_writes_each_frame_witness :
  trace_of (replay (fun _ => quiet_bus) two_frames_world) =
    [StatusSet "▶ REPLAY"; LogLine "[REPLAY] raw_000.npy (2 frames)";
     TxWrite follower_port 1 42 1; TxWrite follower_port 2 42 2;
     TxWrite follower_port 3 42 3; TxWrite follower_port 4 42 4;
     TxWrite follower_port 5 42 5; TxWrite follower_port 6 42 6; Sleep 20;
     TxWrite follower_port 1 42 7; TxWrite follower_port 2 42 8;
     TxWrite follower_port 3 42 9; TxWrite follower_port 4 42 10;
     TxWrite follower_port 5 42 11; TxWrite follower_port 6 42 12; Sleep 20;
     StatusSet "IDLE"; LogLine "[REPLAY] DONE"] /\
  mode (g (world_of (replay (fun _ => quiet_bus) two_frames_world))) = TELEOP.
Proof.
  assert (Hrec : recording (g two_frames_world) = false) by reflexivity.
  assert (Ht : replay_target two_frames_world "records/raw_000.npy").
  { apply target_fallback; [left; reflexivity | vm_compute; reflexivity]. }
  assert (Hload : np_load (disk two_frames_world) "records/raw_000.npy" =
                  Ret [[1; 2; 3; 4; 5; 6]; [7; 8; 9; 10; 11; 12]])
    by (vm_compute; reflexivity).
  destruct (replay_writes_each_frame (fun _ => quiet_bus) two_frames_world
              "records/raw_000.npy" _ Hrec Ht Hload)
    as (_ & Hm & Htr & _).
  split; [rewrite Htr; reflexivity | exact Hm].
Defined.

(** ** Stored shapes *)

Lemma rows_of_length (c : nat) :
  forall (r : nat) (data : list Z), length (rows_of r c data) = r.
Proof. induction r as [|r IH]; intros data; cbn; [reflexivity | by rewrite IH]. Qed.

Lemma rows_of_widths (c : nat) :
  forall (r : nat) (data : list Z),
    length data = (r * c)%nat ->
    Forall (fun q => length q = c) (rows_of r c data).
Proof.
  induction r as [|r IH]; intros data Hlen; cbn; constructor.
  - rewrite length_take. lia.
  - apply IH. rewrite length_drop. lia.
Qed.

Lemma length_zip_ids (ids q : list Z) :
  length (zip_ids ids q) = Nat.min (length ids) (length q).
Proof.
  revert q. induction ids as [|i ids IH]; intros [|v q]; cbn; try reflexivity.
  by rewrite IH.
Qed.

Lemma length_frame_writes (q : list Z) :
  length (frame_writes q) = Nat.min (length q) NUM_JOINTS.
Proof.
  unfold frame_writes. rewrite length_fmap, length_zip_ids.
  change (length JOINT_IDS) with NUM_JOINTS. lia.
Qed.

Lemma length_frames_writes (c : nat) (seq : list (list Z)) :
  Forall (fun q => length q = c) seq ->
  length (concat (frame_writes <$> seq)) = (length seq * Nat.min c NUM_JOINTS)%nat.
Proof.
  induction 1 as [|q seq Hq _ IH]; [reflexivity|].
  cbn [fmap list_fmap concat length]. rewrite length_app, IH, length_frame_writes, Hq.
  lia.
Qed.

Lemma np_load_npy (d : records) (p f : string) (r c : nat) (data : list Z) :
  in_record_dir p = Some f ->
  d !! f = Some (Npy r c data) ->
  length data = (r * c)%nat ->
  np_load d p = Ret (rows_of r c data).
Proof.
  intros Hp Hf Hlen. unfold np_load. rewrite Hp, Hf.
  by rewrite (proj2 (Nat.eqb_eq _ _) Hlen).
Qed.

Lemma rows_of_positions (c : nat) :
  forall (r : nat) (data : list Z),
    rows_of r c data =
      (fun k => take c (drop (k * c) data)) <$> seq 0 r.
Proof.
  induction r as [|r IH]; intros data; [reflexivity|].
  cbn [rows_of seq fmap list_fmap]. f_equal.
  rewrite IH, <- fmap_S_seq, <- list_fmap_compose.
  apply list_fmap_ext. intros i k _. cbn. by rewrite drop_drop.
Qed.

(** C5, as the code has it: [np.load] in [replay()] is followed by no
    shape test.  A stored array of [r] rows and any number [c] of columns
    is played back row by row: in row [k], the elements from [k * c] on,
    the joint at position [i] of [JOINT_IDS] is commanded to the value
    in column [i], for the first [min(c, NUM_JOINTS)] columns, and one
    sleep follows; the mode returns to TELEOP and the records directory
    is left as it was. *)
Theorem replay_plays_any_shape (bs : nat -> bus) (w : world) (p f : string)
    (r c : nat) (data : list Z) :
  recording (g w) = false ->
  replay_target w p ->
  in_record_dir p = Some f ->
  disk w !! f = Some (Npy r c data) ->
  length data = (r * c)%nat ->
  let out := replay bs w in
  result_of out = Ret tt /\
  disk (world_of out) = disk w /\
  mode (g (world_of out)) = TELEOP /\
  trace_of out =
    [StatusSet "▶ REPLAY";
     LogLine ("[REPLAY] " +:+ os_path_basename p +:+
              " (" +:+ str_nat r +:+ " frames)")] ++
    concat ((fun k =>
               ((fun i => TxWrite follower_port (nth i JOINT_IDS 0)
                                  ADDR_GOAL_POSITION
                                  (nth i (take c (drop (k * c) data)) 0))
                <$> seq 0 (Nat.min c NUM_JOINTS)) ++ [Sleep DT])
            <$> seq 0 r) ++
    [StatusSet "IDLE"; LogLine "[REPLAY] DONE"] /\
  length (List.filter is_follower_write (trace_of out)) =
    (r * Nat.min c NUM_JOINTS)%nat /\
  length (List.filter is_sleep (trace_of out)) = r.
Proof.
  intros Hrec Ht Hp Hf Hlen out. subst out.
  pose proof (np_load_npy _ _ _ _ _ _ Hp Hf Hlen) as Hload.
  rewrite (replay_spec bs w p _ Hrec Ht Hload).
  unfold result_of, world_of, trace_of. cbn [fst snd g disk].
  destruct (replay_trace_filters p (rows_of r c data)) as [Hw Hs].
  rewrite Hw, Hs, rows_of_length.
  rewrite (length_frames_writes c), rows_of_length
    by (by apply rows_of_widths).
  split; [done|]. split; [done|]. split; [done|]. split; [|done].
  unfold replay_trace, replay_log. rewrite playback_positions, rows_of_length.
  do 3 f_equal.
  pose proof (rows_of_widths c r data Hlen) as Hwid.
  rewrite rows_of_positions in Hwid |- *. rewrite <- list_fmap_compose.
  apply Forall_fmap_ext_1. rewrite Forall_fmap in Hwid.
  eapply Forall_impl; [exact Hwid|].
  intros k Hk. cbn in Hk |- *. unfold joint_writes. by rewrite Hk.
Qed.

Lemma replay_plays_any_shape_witness :
  trace_of (replay (fun _ => quiet_bus) short_frames_world) =
    [StatusSet "▶ REPLAY"; LogLine "[REPLAY] raw_000.npy (2 frames)";
     TxWrite follower_port 1 42 10; TxWrite follower_port 2 42 20;
     TxWrite follower_port 3 42 30; Sleep 20;
     TxWrite follower_port 1 42 40; TxWrite follower_port 2 42 50;
     TxWrite follower_port 3 42 60; Sleep 20;
     StatusSet "IDLE"; LogLine "[REPLAY] DONE"] /\
  result_of (replay (fun _ => quiet_bus) short_frames_world) = Ret tt.
Proof.
  assert (Hrec : recording (g short_frames_world) = false) by reflexivity.
  assert (Ht : replay_target short_frames_world "records/raw_000.npy").
  { apply target_fallback; [left; reflexivity | vm_compute; reflexivity]. }
  assert (Hp : in_record_dir "records/raw_000.npy" = Some "raw_000.npy")
    by reflexivity.
  assert (Hf : disk short_frames_world !! "raw_000.npy" =
               Some (Npy 2 3 [10; 20; 30; 40; 50; 60]))
    by (vm_compute; reflexivity).
  assert (Hlen : length [10; 20; 30; 40; 50; 60] = (2 * 3)%nat) by reflexivity.
  destruct (replay_plays_any_shape (fun _ => quiet_bus) short_frames_world
              _ _ _ _ _ Hrec Ht Hp Hf Hlen)
    as (Hr & _ & _ & Htr & _).
  split; [rewrite Htr; reflexivity | exact Hr].
Defined.

(** C5 as the specification words it fails: a stored array with three
    columns, against six configured joints, is loaded without any
    failure and both of its rows are written to the follower. *)
Lemma replay_shape_mismatch_not_rejected :
  disk short_frames_world !! "raw_000.npy" =
    Some (Npy 2 3 [10; 20; 30; 40; 50; 60]) /\
  3%nat <> NUM_JOINTS /\
  np_load (disk short_frames_world) "records/raw_000.npy" =
    Ret [[10; 20; 30]; [40; 50; 60]] /\
  result_of (replay (fun _ => quiet_bus) short_frames_world) = Ret tt /\
  trace_of (replay (fun _ => quiet_bus) short_frames_world) =
    [StatusSet "▶ REPLAY"; LogLine "[REPLAY] raw_000.npy (2 frames)";
     TxWrite follower_port 1 42 10; TxWrite follower_port 2 42 20;
     TxWrite follower_port 3 42 30; Sleep 20;
     TxWrite follower_port 1 42 40; TxWrite follower_port 2 42 50;
     TxWrite follower_port 3 42 60; Sleep 20;
     StatusSet "IDLE"; LogLine "[REPLAY] DONE"].
Proof. vm_compute. repeat split; discriminate. Qed.

(** ** The polling loop *)

Lemma robot_tick_replay (b : bus) (w : world) :
  mode (g w) = REPLAY -> robot_tick b w = (Ret tt, w, [Sleep DT]).
Proof. intros H. unfold robot_tick. run_monad. by rewrite decide_True. Qed.

Lemma robot_tick_mirror (b : bus) (w : world) :
  mode (g w) <> REPLAY ->
  robot_tick b w =
    (Ret tt,
     (if recording (g w)
      then {| g := set_buffer (buffer (g w) ++ [leader_frame b]) (g w);
              disk := disk w |}
      else w),
     leader_reads b ++ frame_writes (leader_frame b) ++ [Sleep DT]).
Proof.
  intros H. unfold robot_tick, leader_frame, leader_reads. run_monad.
  rewrite decide_False by done.
  destruct (read_leader b) as [q t]. run_monad. rewrite write_follower_eq.
  destruct (recording (g w)); cbn; by rewrite ?world_eta.
Qed.

Lemma robot_tick_returns (b : bus) (w : world) :
  result_of (robot_tick b w) = Ret tt.
Proof.
  destruct (decide (mode (g w) = REPLAY)) as [H|H].
  - by rewrite robot_tick_replay.
  - by rewrite robot_tick_mirror.
Qed.

Lemma robot_tick_same_control (b : bus) (w : world) :
  same_control w (world_of (robot_tick b w)).
Proof.
  destruct (decide (mode (g w) = REPLAY)) as [H|H].
  - rewrite robot_tick_replay by done. by repeat split.
  - rewrite robot_tick_mirror by done. unfold world_of. cbn [fst snd].
    destruct (recording (g w)) eqn:E; by repeat split.
Qed.

Lemma loop_iteration_same_control (b : bus) (w : world) :
  same_control w (world_of (loop_iteration b w)).
Proof.
  unfold loop_iteration. run_monad. destruct (running (g w)).
  - rewrite triple_eta. apply robot_tick_same_control.
  - by repeat split.
Qed.

(** ** The callbacks *)

Lemma start_record_recording (w : world) :
  recording (g w) = true -> start_record w = (Ret tt, w, []).
Proof. intros H. unfold start_record. run_monad. by rewrite H. Qed.

Lemma start_record_spec (w : world) (p : string) :
  recording (g w) = false ->
  next_path (disk w) = Ret p ->
  start_record w =
    (Ret tt, {| g := started p (g w); disk := disk w |},
     [StatusSet "● RECORDING";
      LogLine ("[RECORD] START → " +:+ os_path_basename p)]).
Proof. intros H Hn. unfold start_record. run_monad. by rewrite H, Hn. Qed.

Lemma start_record_raise (w : world) (e : exn) :
  recording (g w) = false ->
  next_path (disk w) = Raise e ->
  start_record w =
    (Raise e,
     {| g := set_buffer [] (set_recording true (set_mode RECORD (g w)));
        disk := disk w |}, []).
Proof. intros H Hn. unfold start_record. run_monad. by rewrite H, Hn. Qed.

Lemma start_record_cases (w : world) :
  let w' := world_of (start_record w) in
  disk w' = disk w /\ running (g w') = running (g w) /\
  last_saved (g w') = last_saved (g w) /\
  (w' = w /\ recording (g w) = true \/
   mode (g w') = RECORD /\ recording (g w') = true).
Proof.
  destruct (recording (g w)) eqn:Hrec.
  - rewrite start_record_recording by done. cbn. auto 10.
  - destruct (next_path (disk w)) as [p|e] eqn:Hn.
    + rewrite (start_record_spec w p) by done. cbn. auto 10.
    + rewrite (start_record_raise w e) by done. cbn. auto 10.
Qed.

Lemma stop_record_idle (w : world) :
  recording (g w) = false -> stop_record w = (Ret tt, w, []).
Proof. intros H. unfold stop_record. run_monad. by rewrite H. Qed.

Lemma stop_record_cases (w : world) :
  let w' := world_of (stop_record w) in
  running (g w') = running (g w) /\
  (w' = w /\ recording (g w) = false \/
   mode (g w') = TELEOP /\ recording (g w') = false).
Proof.
  destruct (recording (g w)) eqn:Hrec.
  - unfold stop_record. run_monad. rewrite Hrec. cbn.
    destruct (buffer (g w)) as [|q buf]; [cbn; auto 10|].
    destruct (np_array_int32 (q :: buf)) as [a|e]; [|cbn; auto].
    run_monad. destruct (np_save (disk w) (save_path (g w)) a); cbn; auto 10.
  - rewrite stop_record_idle by done. cbn. auto 10.
Qed.

Lemma replay_play_cases (bs : nat -> bus) (w : world) :
  let w' := world_of (replay_play bs w) in
  disk w' = disk w /\ running (g w') = running (g w) /\
  recording (g w') = recording (g w) /\
  last_saved (g w') = last_saved (g w) /\
  (mode (g w') = mode (g w) \/ mode (g w') = TELEOP).
Proof.
  destruct (last_saved (g w)) as [p|] eqn:Hls.
  - destruct (np_load (disk w) p) as [seq|e] eqn:Hload.
    + rewrite (replay_play_spec bs w p seq) by done. cbn. auto 10.
    + rewrite (replay_play_raise bs w p e) by done. cbn. auto 10.
  - unfold replay_play. run_monad. rewrite Hls. cbn. auto 10.
Qed.

Lemma replay_cases (bs : nat -> bus) (w : world) :
  let w' := world_of (replay bs w) in
  disk w' = disk w /\ running (g w') = running (g w) /\
  recording (g w') = recording (g w) /\
  (mode (g w') = mode (g w) \/
   mode (g w') = TELEOP /\ recording (g w) = false).
Proof.
  unfold replay, replay_body. run_monad.
  destruct (recording (g w)) eqn:Hrec; [cbn; auto 10|].
  assert (Hplay : forall w1 : world,
             disk w1 = disk w -> running (g w1) = running (g w) ->
             recording (g w1) = recording (g w) -> mode (g w1) = mode (g w) ->
             let w' := world_of (replay_play bs w1) in
             disk w' = disk w /\ running (g w') = running (g w) /\
             recording (g w') = false /\
             (mode (g w') = mode (g w) \/
              mode (g w') = TELEOP /\ false = false)).
  { intros w1 H1 H2 H3 H4.
    destruct (replay_play_cases bs w1) as (? & ? & ? & ? & ?).
    cbn zeta. intuition congruence. }
  destruct (match last_saved (g w) with
            | Some p => negb (os_path_exists (disk w) p)
            | None => true
            end).
  - destruct (last (persisted_files (disk w))) as [f|]; [|cbn; auto 10].
    run_monad. rewrite !triple_eta. by apply Hplay.
  - rewrite ?triple_eta, ?world_eta. by apply Hplay.
Qed.

Lemma quit_all_spec (w : world) :
  quit_all w =
    (Ret tt, {| g := set_running false (g w); disk := disk w |},
     [Sleep 50; ClosePort leader_port; ClosePort follower_port; Destroy;
      PrintLine "[DONE]"]).
Proof. reflexivity. Qed.

(** ** The recording flag and the mode *)

Lemma step_flag_matches_mode (a : action) (w : world) :
  flag_matches_mode w -> flag_matches_mode (world_of (step a w)).
Proof.
  unfold flag_matches_mode. intros [Hiff Hnr]. destruct a as [b | [| | bs |]]; cbn [step run_command].
  - destruct (loop_iteration_same_control b w) as (_ & -> & -> & _). done.
  - destruct (start_record_cases w) as (_ & _ & _ & [[-> _] | [-> ->]]); done.
  - destruct (stop_record_cases w) as (_ & [[-> _] | [-> ->]]); done.
  - destruct (replay_cases bs w) as (_ & _ & -> & [-> | [-> Hf]]); [done|].
    rewrite Hf. done.
  - rewrite quit_all_spec. done.
Qed.

Lemma run_flag_matches_mode (sched : list action) :
  forall w : world, flag_matches_mode w -> flag_matches_mode (run sched w).
Proof.
  induction sched as [|a sched IH]; intros w Hw; [exact Hw|].
  cbn [run]. apply IH. by apply step_flag_matches_mode.
Qed.

Lemma reachable_flag_matches_mode (w : world) :
  reachable w -> flag_matches_mode w.
Proof.
  intros (d & sched & ->). apply run_flag_matches_mode.
  split; [|done]. split; discriminate.
Qed.

(** C9: in every world reached from the initial state by callbacks and
    loop iterations, [recording] is true exactly when the mode is RECORD,
    so the guard of [replay()] on the flag decides as a guard on the mode
    would. *)
Theorem recording_flag_iff_mode_record (d : records) (sched : list action) :
  let w := run sched (initial_world d) in
  (recording (g w) = true <-> mode (g w) = RECORD) /\
  forall bs, replay bs w = replay_guarded_by_mode bs w.
Proof.
  intros w.
  assert (Hinv : flag_matches_mode w)
    by (apply reachable_flag_matches_mode; by exists d, sched).
  destruct Hinv as [Hiff _]. split; [exact Hiff|].
  intros bs. unfold replay, replay_guarded_by_mode. run_monad.
  destruct (recording (g w)) eqn:Hrec.
  - rewrite decide_True; [done | by apply Hiff].
  - rewrite decide_False; [done|]. intros Hm. apply Hiff in Hm. congruence.
Qed.

(** ** Bus faults *)

Lemma read_leader_eq (b : bus) :
  read_leader b =
    ((fun id => (read2ByteTxRx b leader_port id ADDR_PRESENT_POSITION).1.1)
       <$> JOINT_IDS,
     (fun id => TxRead leader_port id ADDR_PRESENT_POSITION) <$> JOINT_IDS).
Proof.
  unfold read_leader, JOINT_IDS, NUM_JOINTS.
  cbn [imap fold_left replicate fmap list_fmap compose].
  repeat match goal with
         | |- context [read2ByteTxRx b ?p ?i ?a] =>
             destruct (read2ByteTxRx b p i a) as [[? ?] ?]
         end.
  reflexivity.
Qed.

Lemma filter_log_tick (b : bus) :
  List.filter is_log
    (leader_reads b ++ frame_writes (leader_frame b) ++ [Sleep DT]) = [].
Proof.
  apply filter_nil_of_false. intros e He.
  unfold leader_reads, leader_frame in He. rewrite read_leader_eq in He.
  cbn [fst snd] in He. unfold frame_writes in He.
  rewrite !elem_of_app, !list_elem_of_fmap, list_elem_of_singleton in He.
  destruct He as [(? & -> & _) | [(? & -> & _) | ->]]; reflexivity.
Qed.

Lemma robot_loop_running (bs : list bus) :
  forall w : world,
    running (g w) = true ->
    result_of (robot_loop bs w) = Ret tt /\
    length (List.filter is_sleep (trace_of (robot_loop bs w))) = length bs.
Proof.
  induction bs as [|b bs IH]; intros w Hrun; [done|].
  cbn [robot_loop]. run_monad. rewrite Hrun.
  pose proof (robot_tick_returns b w) as Hret.
  pose proof (robot_tick_same_control b w) as (Hrun' & _).
  assert (Hs : length (List.filter is_sleep (trace_of (robot_tick b w))) = 1%nat).
  { destruct (decide (mode (g w) = REPLAY)) as [H|H].
    - by rewrite robot_tick_replay.
    - rewrite robot_tick_mirror by done. unfold trace_of. cbn [snd].
      unfold leader_reads. rewrite read_leader_eq. cbn [snd].
      rewrite !List.filter_app, count_sleep_frame_writes. reflexivity. }
  destruct (robot_tick b w) as [[r w1] t1]. unfold result_of, world_of, trace_of in *.
  cbn [fst snd] in *. subst r.
  destruct (IH w1) as [Hr Hn]; [congruence|].
  destruct (robot_loop bs w1) as [[r2 w2] t2]. cbn [fst snd] in *.
  split; [exact Hr|].
  cbn [app]. rewrite List.filter_app, length_app. cbn [length]. lia.
Qed.

Lemma step_running (a : action) (w : world) :
  a <> Call CQuit -> running (g (world_of (step a w))) = running (g w).
Proof.
  intros Ha. destruct a as [b | [| | bs |]]; cbn [step run_command]; [| | | |done].
  - by destruct (loop_iteration_same_control b w) as (-> & _).
  - by destruct (start_record_cases w) as (_ & -> & _).
  - by destruct (stop_record_cases w) as (-> & _).
  - by destruct (replay_cases bs w) as (_ & -> & _).
Qed.

(** C8, as the code has it: the result codes of the bus are dropped, so
    a tick with a failed read or write is neither logged nor skipped.
    The six joints of the leader are read, each joint of the follower is
    commanded to whatever data the bus answered for the joint of the
    same identifier, and, while recording, the frame of those data is
    appended to the buffer.  The tick returns normally and leaves
    [running] alone, the loop goes through every further iteration while
    [running] holds, and no action other than [quit_all()] changes
    [running]. *)
Theorem tick_faults_not_handled (b : bus) (w : world) :
  mode (g w) <> REPLAY ->
  read_fault b \/ write_fault b ->
  let out := robot_tick b w in
  let data := fun id =>
    (read2ByteTxRx b leader_port id ADDR_PRESENT_POSITION).1.1 in
  result_of out = Ret tt /\
  trace_of out =
    [TxRead leader_port 1 ADDR_PRESENT_POSITION;
     TxRead leader_port 2 ADDR_PRESENT_POSITION;
     TxRead leader_port 3 ADDR_PRESENT_POSITION;
     TxRead leader_port 4 ADDR_PRESENT_POSITION;
     TxRead leader_port 5 ADDR_PRESENT_POSITION;
     TxRead leader_port 6 ADDR_PRESENT_POSITION;
     TxWrite follower_port 1 ADDR_GOAL_POSITION (data 1);
     TxWrite follower_port 2 ADDR_GOAL_POSITION (data 2);
     TxWrite follower_port 3 ADDR_GOAL_POSITION (data 3);
     TxWrite follower_port 4 ADDR_GOAL_POSITION (data 4);
     TxWrite follower_port 5 ADDR_GOAL_POSITION (data 5);
     TxWrite follower_port 6 ADDR_GOAL_POSITION (data 6);
     Sleep DT] /\
  List.filter is_log (trace_of out) = [] /\
  buffer (g (world_of out)) =
    (if recording (g w)
     then buffer (g w) ++ [[data 1; data 2; data 3; data 4; data 5; data 6]]
     else buffer (g w)) /\
  running (g (world_of out)) = running (g w) /\
  (forall bs, running (g w) = true ->
     result_of (robot_loop (b :: bs) w) = Ret tt /\
     length (List.filter is_sleep (trace_of (robot_loop (b :: bs) w))) =
       S (length bs)) /\
  (forall a, a <> Call CQuit ->
     running (g (world_of (step a w))) = running (g w)).
Proof.
  intros Hm _ out data. subst out.
  split; [apply robot_tick_returns|].
  assert (Hfr : leader_frame b =
                [data 1; data 2; data 3; data 4; data 5; data 6])
    by (unfold leader_frame; by rewrite read_leader_eq).
  assert (Hrd : leader_reads b =
                (fun id => TxRead leader_port id ADDR_PRESENT_POSITION)
                <$> JOINT_IDS)
    by (unfold leader_reads; by rewrite read_leader_eq).
  pose proof (filter_log_tick b) as Hlog.
  rewrite robot_tick_mirror by done. unfold trace_of, world_of. cbn [fst snd].
  rewrite Hlog, Hrd, Hfr.
  split; [reflexivity|]. split; [reflexivity|].
  split; [by destruct (recording (g w))|].
  split; [by destruct (recording (g w))|].
  split.
  - intros bs Hrun. exact (robot_loop_running (b :: bs) w Hrun).
  - intros a Ha. exact (step_running a w Ha).
Qed.

Lemma timeout_bus_read_fault : read_fault timeout_bus.
Proof. exists 1. split; [by left | discriminate]. Defined.

Lemma tick_faults_not_handled_witness :
  trace_of (robot_tick timeout_bus recording_world) =
    [TxRead leader_port 1 56; TxRead leader_port 2 56; TxRead leader_port 3 56;
     TxRead leader_port 4 56; TxRead leader_port 5 56; TxRead leader_port 6 56;
     TxWrite follower_port 1 42 0; TxWrite follower_port 2 42 2048;
     TxWrite follower_port 3 42 2048; TxWrite follower_port 4 42 2048;
     TxWrite follower_port 5 42 2048; TxWrite follower_port 6 42 2048;
     Sleep 20] /\
  buffer (g (world_of (robot_tick timeout_bus recording_world))) =
    [[0; 2048; 2048; 2048; 2048; 2048]].
Proof.
  assert (Hm : mode (g recording_world) <> REPLAY) by discriminate.
  destruct (tick_faults_not_handled timeout_bus recording_world Hm
              (or_introl timeout_bus_read_fault))
    as (_ & Ht & _ & Hb & _).
  split; [exact Ht | exact Hb].
Defined.

(** C8 as the specification words it fails: on a tick whose first read
    times out while recording, no line is logged, the six follower
    writes are issued (joint 1 is sent to position 0) and the frame is
    appended to the buffer. *)
Lemma tick_with_read_fault_not_skipped :
  (read2ByteTxRx timeout_bus leader_port 1 ADDR_PRESENT_POSITION).1.2
    <> COMM_SUCCESS /\
  robot_tick timeout_bus recording_world =
    (Ret tt,
     {| g := set_buffer [[0; 2048; 2048; 2048; 2048; 2048]] (g recording_world);
        disk := ∅ |},
     [TxRead leader_port 1 56; TxRead leader_port 2 56; TxRead leader_port 3 56;
      TxRead leader_port 4 56; TxRead leader_port 5 56; TxRead leader_port 6 56;
      TxWrite follower_port 1 42 0; TxWrite follower_port 2 42 2048;
      TxWrite follower_port 3 42 2048; TxWrite follower_port 4 42 2048;
      TxWrite follower_port 5 42 2048; TxWrite follower_port 6 42 2048;
      Sleep 20]).
Proof. split; [discriminate | reflexivity]. Qed.

(** ** The fallback target of [replay()] *)

Lemma replay_not_recording (bs : nat -> bus) (w : world) :
  recording (g w) = false -> replay bs w = replay_body bs w.
Proof.
  intros H. unfold replay. run_monad. rewrite H. cbn [app]. apply triple_eta.
Qed.

Lemma replay_keeps_target (bs : nat -> bus) (w : world) (p : string) :
  recording (g w) = false ->
  replay_target w p ->
  let w' := world_of (replay bs w) in
  last_saved (g w') = Some p /\ disk w' = disk w /\ recording (g w') = false.
Proof.
  intros Hrec Ht. rewrite (replay_not_recording bs w Hrec).
  rewrite (replay_body_target bs w p Ht). cbn zeta.
  destruct (replay_play_cases bs
              {| g := set_last_saved (Some p) (g w); disk := disk w |})
    as (Hd & _ & Hr & Hl & _).
  cbn [g disk] in *. by rewrite Hd, Hr, Hl.
Qed.

Lemma replays_keep_target (p : string) (bss : list (nat -> bus)) :
  forall w : world,
    recording (g w) = false ->
    last_saved (g w) = Some p ->
    os_path_exists (disk w) p = true ->
    let w' := replays bss w in
    last_saved (g w') = Some p /\ disk w' = disk w /\ recording (g w') = false.
Proof.
  induction bss as [|bs bss IH]; intros w Hrec Hls Hex; [done|].
  cbn [replays foldl].
  destruct (replay_keeps_target bs w p Hrec (target_last_saved w p Hls Hex))
    as (Hl & Hd & Hr).
  destruct (IH (world_of (replay bs w))) as (Hl' & Hd' & Hr');
    [done | done | by rewrite Hd |].
  cbn zeta. unfold replays in *. by rewrite Hl', Hd', Hr', Hd.
Qed.

(** C10: when [last_saved] is unset or names a file that is gone, and
    some directory entry is named [raw_...], [replay()] stores the
    lexicographically last such path in [last_saved] without writing any
    file; every later [replay()] then finds [last_saved] present and
    takes that same path as its target. *)
Theorem replay_fallback_overwrites_last_saved (bs : nat -> bus) (w : world)
    (p : string) :
  recording (g w) = false ->
  (last_saved (g w) = None \/
   exists p0, last_saved (g w) = Some p0 /\ os_path_exists (disk w) p0 = false) ->
  last (persisted_files (disk w)) = Some p ->
  let w1 := world_of (replay bs w) in
  last_saved (g w1) = Some p /\
  disk w1 = disk w /\
  (exists f, p = os_path_join RECORD_DIR f /\ f ∈ dom (disk w) /\
             startswith "raw_" f = true /\
             forall f', f' ∈ dom (disk w) -> startswith "raw_" f' = true ->
                        String.le (os_path_join RECORD_DIR f') p) /\
  forall bss : list (nat -> bus),
    let wn := replays bss w1 in
    last_saved (g wn) = Some p /\ disk wn = disk w /\
    os_path_exists (disk wn) p = true.
Proof.
  intros Hrec Hls Hlast w1. subst w1.
  destruct (replay_keeps_target bs w p Hrec (target_fallback w p Hls Hlast))
    as (Hl & Hd & Hr).
  destruct (persisted_files_Some _ _ Hlast) as (f & -> & Hf & Hraw & Hmax).
  assert (Hex : os_path_exists (disk w) (os_path_join RECORD_DIR f) = true)
    by (rewrite os_path_exists_join; by apply bool_decide_eq_true).
  split; [exact Hl|]. split; [exact Hd|].
  split; [by exists f|].
  intros bss.
  destruct (replays_keep_target (os_path_join RECORD_DIR f) bss
              (world_of (replay bs w)) Hr Hl) as (Hl' & Hd' & _);
    [by rewrite Hd|].
  cbn zeta. by rewrite Hl', Hd', Hd.
Qed.

Lemma replay_fallback_overwrites_last_saved_witness :
  last_saved (g (world_of (replay (fun _ => quiet_bus) two_files_world))) =
    Some "records/raw_001.npy" /\
  last_saved (g (replays [fun _ => quiet_bus; fun _ => quiet_bus]
                   (world_of (replay (fun _ => quiet_bus) two_files_world)))) =
    Some "records/raw_001.npy".
Proof.
  assert (Hrec : recording (g two_files_world) = false) by reflexivity.
  assert (Hlast : last (persisted_files (disk two_files_world)) =
                  Some "records/raw_001.npy") by (vm_compute; reflexivity).
  destruct (replay_fallback_overwrites_last_saved (fun _ => quiet_bus)
              two_files_world _ Hrec (or_introl eq_refl) Hlast)
    as (H1 & _ & _ & H2).
  split; [exact H1|].
  exact (proj1 (H2 [fun _ => quiet_bus; fun _ => quiet_bus])).
Defined.

(** ** Saving and loading *)

Lemma int32_id (z : Z) : is_int32 z -> int32 z = z.
Proof. unfold is_int32, int32. intros H. rewrite Z.mod_small; lia. Qed.

Lemma fmap_int32_id (l : list Z) : Forall is_int32 l -> int32 <$> l = l.
Proof.
  induction 1 as [|z l Hz _ IH]; [reflexivity|].
  cbn. by rewrite int32_id, IH.
Qed.

Lemma length_concat_rows (n : nat) (T : list (list Z)) :
  Forall (fun q => length q = n) T ->
  length (concat T) = (length T * n)%nat.
Proof.
  induction 1 as [|q T Hq _ IH]; [reflexivity|].
  cbn. rewrite length_app, IH, Hq. lia.
Qed.

Lemma rows_of_concat (n : nat) (T : list (list Z)) :
  Forall (fun q => length q = n) T ->
  rows_of (length T) n (concat T) = T.
Proof.
  induction 1 as [|q T Hq _ IH]; [reflexivity|].
  cbn [length rows_of concat].
  rewrite take_app_length', drop_app_length' by done. by rewrite IH.
Qed.

Lemma np_array_int32_uniform (n : nat) (T : list (list Z)) :
  (1 <= length T)%nat ->
  Forall (fun q => length q = n) T ->
  np_array_int32 T = Ret (Npy (length T) n (int32 <$> concat T)).
Proof.
  intros Hne Hn. unfold np_array_int32.
  assert (Hhd : match T with q :: _ => length q | [] => 0%nat end = n).
  { destruct Hn; [cbn in Hne; lia | done]. }
  rewrite Hhd.
  assert (Hall : forallb (fun q => Nat.eqb (length q) n) T = true).
  { apply forallb_forall. intros q Hq. apply Nat.eqb_eq.
    rewrite Forall_forall in Hn. apply Hn. by apply list_elem_of_In. }
  by rewrite Hall.
Qed.

Lemma np_array_int32_rows (n : nat) (T : list (list Z)) :
  (1 <= length T)%nat ->
  Forall (fun q => length q = n) T ->
  Forall (Forall is_int32) T ->
  np_array_int32 T = Ret (Npy (length T) n (concat T)).
Proof.
  intros Hne Hn Hr. rewrite (np_array_int32_uniform n) by done.
  rewrite fmap_int32_id; [done|]. by apply Forall_concat.
Qed.

Lemma save_then_load (d : records) (T : list (list Z)) (p f : string) (n : nat) :
  (1 <= length T)%nat ->
  Forall (fun q => length q = n) T ->
  Forall (Forall is_int32) T ->
  in_record_dir p = Some f ->
  endswith ".npy" f = true ->
  exists a, np_array_int32 T = Ret a /\
            np_save d (Some p) a = Ret (<[f := a]> d) /\
            np_load (<[f := a]> d) p = Ret T.
Proof.
  intros Hne Hn Hr Hp Hext. eexists. split; [by apply np_array_int32_rows|].
  split.
  - unfold np_save. by rewrite Hp, Hext.
  - rewrite (np_load_npy _ p f (length T) n (concat T)).
    + by rewrite rows_of_concat.
    + exact Hp.
    + apply lookup_insert_eq.
    + by apply length_concat_rows.
Qed.

Lemma stop_record_saves (w : world) (q : list Z) (buf : list (list Z))
    (a : file) (d' : records) :
  recording (g w) = true ->
  buffer (g w) = q :: buf ->
  np_array_int32 (q :: buf) = Ret a ->
  np_save (disk w) (save_path (g w)) a = Ret d' ->
  stop_record w =
    (Ret tt,
     {| g := set_buffer []
               (set_last_saved (save_path (g w))
                  (set_mode TELEOP (set_recording false (g w))));
        disk := d' |},
     [StatusSet "IDLE";
      LogLine ("[RECORD] SAVED (" +:+ str_nat (length (q :: buf)) +:+
               " frames)")]).
Proof.
  intros Hrec Hbuf Ha Hs. unfold stop_record. run_monad.
  rewrite Hrec. cbn. rewrite Hbuf. cbn. rewrite Ha. cbn. rewrite Hs.
  reflexivity.
Qed.

Lemma stop_record_empty (w : world) :
  recording (g w) = true ->
  buffer (g w) = [] ->
  stop_record w =
    (Ret tt,
     {| g := set_buffer [] (set_mode TELEOP (set_recording false (g w)));
        disk := disk w |},
     [StatusSet "IDLE"; LogLine "[RECORD] STOP (no frames)"]).
Proof.
  intros Hrec Hbuf. unfold stop_record. run_monad.
  rewrite Hrec. cbn. rewrite Hbuf. reflexivity.
Qed.

(** C7: a buffer of at least one frame, all frames of one length and
    all positions signed 32-bit, that [stop_record()] saves under
    [save_path] is what [np.load] of that path returns, frame by frame;
    the save itself, [np.array] then [np.save], succeeds. *)
Theorem save_load_round_trip (w : world) (T : list (list Z)) (p f : string)
    (n : nat) :
  (1 <= length T)%nat ->
  Forall (fun q => length q = n) T ->
  Forall (Forall is_int32) T ->
  recording (g w) = true ->
  buffer (g w) = T ->
  save_path (g w) = Some p ->
  in_record_dir p = Some f ->
  endswith ".npy" f = true ->
  (exists a, np_array_int32 T = Ret a /\
             np_save (disk w) (Some p) a = Ret (<[f := a]> (disk w)) /\
             np_load (<[f := a]> (disk w)) p = Ret T) /\
  let out := stop_record w in
  result_of out = Ret tt /\
  last_saved (g (world_of out)) = Some p /\
  np_load (disk (world_of out)) p = Ret T.
Proof.
  intros Hne Hn Hr Hrec Hbuf Hsp Hp Hext.
  destruct (save_then_load (disk w) T p f n Hne Hn Hr Hp Hext)
    as (a & Ha & Hs & Hl).
  split; [by exists a|].
  destruct T as [|q T']; [cbn in Hne; lia|].
  rewrite <- Hsp in Hs.
  rewrite (stop_record_saves w q T' a _ Hrec Hbuf Ha Hs).
  unfold result_of, world_of. cbn [fst snd g disk].
  by rewrite Hl, Hsp.
Qed.

Lemma save_load_round_trip_witness :
  np_load (disk (world_of (stop_record one_frame_world))) "records/raw_000.npy" =
    Ret [sample_frame].
Proof.
  assert (Hne : (1 <= length [sample_frame])%nat) by (cbn; lia).
  assert (Hn : Forall (fun q : list Z => length q = 6%nat) [sample_frame])
    by (repeat constructor).
  assert (Hr : Forall (Forall is_int32) [sample_frame])
    by (repeat constructor; unfold is_int32; lia).
  destruct (save_load_round_trip one_frame_world _ "records/raw_000.npy"
              "raw_000.npy" 6 Hne Hn Hr eq_refl eq_refl eq_refl eq_refl eq_refl)
    as (_ & _ & _ & H).
  exact H.
Defined.

(** ** File naming *)

Lemma next_after_cons (used : nat -> bool) (a : nat) (l : list nat) :
  next_after used (a :: l) =
    if used a then Nat.max (S a) (next_after used l) else next_after used l.
Proof. reflexivity. Qed.

Lemma next_after_zero (used : nat -> bool) (l : list nat) :
  (forall i, i ∈ l -> used i = false) -> next_after used l = 0%nat.
Proof.
  induction l as [|a l IH]; intros H; [reflexivity|].
  rewrite next_after_cons, (H a) by set_solver.
  apply IH. intros i Hi. apply H. set_solver.
Qed.

Lemma next_after_max (used : nat -> bool) (l : list nat) (m : nat) :
  m ∈ l -> used m = true ->
  (forall i, i ∈ l -> used i = true -> (i <= m)%nat) ->
  next_after used l = S m.
Proof.
  intros Hm Hu Hmax.
  assert (Hle : forall l', (forall i, i ∈ l' -> used i = true -> (i <= m)%nat) ->
                           (next_after used l' <= S m)%nat).
  { induction l' as [|a l' IH]; intros H; [cbn; lia|].
    rewrite next_after_cons.
    assert (next_after used l' <= S m)%nat
      by (apply IH; intros i Hi; apply H; set_solver).
    destruct (used a) eqn:Ea; [|done].
    assert (a <= m)%nat by (apply H; [set_solver | done]). lia. }
  assert (Hge : forall l', m ∈ l' -> (S m <= next_after used l')%nat).
  { induction l' as [|a l' IH]; intros H; [by apply elem_of_nil in H|].
    rewrite next_after_cons. apply elem_of_cons in H as [<- | H].
    - rewrite Hu. lia.
    - specialize (IH H). destruct (used a); lia. }
  specialize (Hle l Hmax). specialize (Hge l Hm). lia.
Qed.

Lemma raw_file_checked : forallb raw_file_check (seq 0 1000) = true.
Proof. vm_compute. reflexivity. Qed.

Lemma raw_file_facts (i : nat) :
  (i < 1000)%nat ->
  int (slice 4 7 (raw_file i)) = Ret (Z.of_nat i) /\
  startswith "raw_" (raw_file i) = true /\
  endswith ".npy" (raw_file i) = true /\
  String.length (raw_file i) = 11%nat /\
  ((i < 999)%nat -> String.le (raw_file i) (raw_file (S i))).
Proof.
  intros Hi.
  assert (Hc : raw_file_check i = true).
  { pose proof raw_file_checked as H. rewrite forallb_forall in H.
    apply H. apply in_seq. lia. }
  unfold raw_file_check in Hc.
  apply andb_prop in Hc as [Hc H5]. apply andb_prop in Hc as [Hc H4].
  apply andb_prop in Hc as [Hc H3]. apply andb_prop in Hc as [H1 H2].
  split.
  { destruct (int (slice 4 7 (raw_file i))) as [z|]; [|discriminate].
    apply Z.eqb_eq in H1. by subst. }
  split; [exact H2|]. split; [exact H3|].
  split; [by apply Nat.eqb_eq|].
  intros Hlt. apply orb_prop in H5 as [H5 | H5].
  - apply Nat.eqb_eq in H5. lia.
  - unfold String.le. by rewrite H5.
Qed.

Lemma raw_file_1000 :
  startswith "raw_" (raw_file 1000) = true /\
  endswith ".npy" (raw_file 1000) = true /\
  String.length (raw_file 1000) = 12%nat.
Proof. vm_compute. done. Qed.

Lemma raw_file_inj (i j : nat) :
  (i <= 1000)%nat -> (j <= 1000)%nat -> raw_file i = raw_file j -> i = j.
Proof.
  intros Hi Hj Heq.
  destruct (decide (i = 1000%nat)) as [-> | Hi'];
    destruct (decide (j = 1000%nat)) as [-> | Hj']; [done | | |].
  - destruct (raw_file_facts j) as (_ & _ & _ & Hl & _); [lia|].
    destruct raw_file_1000 as (_ & _ & Hl'). rewrite Heq in Hl'. congruence.
  - destruct (raw_file_facts i) as (_ & _ & _ & Hl & _); [lia|].
    destruct raw_file_1000 as (_ & _ & Hl'). rewrite Heq in Hl. congruence.
  - destruct (raw_file_facts i) as (Ha & _); [lia|].
    destruct (raw_file_facts j) as (Hb & _); [lia|].
    rewrite Heq, Hb in Ha. injection Ha. lia.
Qed.

Lemma raw_file_le (i j : nat) :
  (i <= j)%nat -> (j < 1000)%nat -> String.le (raw_file i) (raw_file j).
Proof.
  induction j as [|j IH]; intros Hij Hj.
  - replace i with 0%nat by lia. reflexivity.
  - destruct (decide (i = S j)) as [-> | Hne]; [reflexivity|].
    transitivity (raw_file j).
    + apply IH; lia.
    + destruct (raw_file_facts j) as (_ & _ & _ & _ & H); [lia|]. apply H. lia.
Qed.

Lemma raw_file_le_inv (i m : nat) :
  (i < 1000)%nat -> (m < 1000)%nat ->
  String.le (raw_file i) (raw_file m) -> (i <= m)%nat.
Proof.
  intros Hi Hm Hle. destruct (decide (i <= m)%nat) as [|Hgt]; [done|].
  assert (Hle' : String.le (raw_file m) (raw_file i))
    by (apply raw_file_le; lia).
  assert (raw_file i = raw_file m) by (by apply (anti_symm String.le)).
  assert (i = m) by (apply raw_file_inj; [lia | lia | done]). lia.
Qed.

Lemma next_path_index (z : Z) (i : nat) :
  z = Z.of_nat i ->
  os_path_join RECORD_DIR ("raw_" +:+ format_03d (z + 1) +:+ ".npy") =
  os_path_join RECORD_DIR (raw_file (S i)).
Proof. intros ->. unfold raw_file. do 4 f_equal. lia. Qed.

Lemma next_path_three_digit (d : records) :
  three_digit_names d ->
  next_path d = Ret (os_path_join RECORD_DIR (raw_file (allocate_index d))) /\
  os_path_exists d (os_path_join RECORD_DIR (raw_file (allocate_index d))) = false.
Proof.
  intros Hd.
  assert (Hin : forall i, (i < 1000)%nat -> raw_file i ∈ dom d ->
                raw_file i ∈ List.filter
                  (fun f => startswith "raw_" f && endswith ".npy" f)
                  (os_listdir d)).
  { intros i Hi Hdom. apply elem_of_List_filter. split.
    - by apply elem_of_os_listdir.
    - destruct (raw_file_facts i Hi) as (_ & -> & -> & _). done. }
  assert (Hfresh : forall k, (k <= 1000)%nat ->
            (forall i, (i < 1000)%nat -> raw_file i ∈ dom d -> (i < k)%nat) ->
            os_path_exists d (os_path_join RECORD_DIR (raw_file k)) = false).
  { intros k Hk Hlt. rewrite os_path_exists_join. apply bool_decide_eq_false.
    intros Hdom. destruct (Hd (raw_file k) Hdom) as (i & Hi & Heq).
    - destruct (decide (k = 1000%nat)) as [-> | Hne];
        [apply raw_file_1000 | apply raw_file_facts; lia].
    - destruct (decide (k = 1000%nat)) as [-> | Hne];
        [apply raw_file_1000 | apply raw_file_facts; lia].
    - apply raw_file_inj in Heq; [|lia..]. subst k.
      specialize (Hlt i Hi Hdom). lia. }
  unfold next_path.
  destruct (last (sorted _)) as [f|] eqn:Hlast.
  - apply last_sorted_Some in Hlast as [Hf Hmax].
    apply elem_of_List_filter in Hf as [Hf Hp].
    apply andb_prop in Hp as [Hp1 Hp2].
    destruct (Hd f) as (m & Hm & ->); [by apply elem_of_os_listdir | done..|].
    destruct (raw_file_facts m Hm) as (Hint & _).
    rewrite Hint. cbn [res_bind].
    assert (Hidx : allocate_index d = S m).
    { apply next_after_max.
      - apply list_elem_of_In, in_seq. lia.
      - apply bool_decide_eq_true. by apply elem_of_os_listdir.
      - intros i Hi Hu. apply list_elem_of_In, in_seq in Hi.
        apply bool_decide_eq_true in Hu.
        apply raw_file_le_inv; [lia | lia |]. apply Hmax, Hin; [lia | done]. }
    rewrite Hidx. split; [f_equal; by apply next_path_index|].
    apply Hfresh; [lia|]. intros i Hi Hdom.
    assert (i <= m)%nat; [|lia].
    apply raw_file_le_inv; [lia | lia |]. apply Hmax, Hin; [lia | done].
  - apply last_sorted_None in Hlast.
    assert (Hnone : forall i, (i < 1000)%nat -> raw_file i ∉ dom d).
    { intros i Hi Hdom. specialize (Hin i Hi Hdom). rewrite Hlast in Hin.
      by apply elem_of_nil in Hin. }
    assert (Hidx : allocate_index d = 0%nat).
    { apply next_after_zero. intros i Hi. apply list_elem_of_In, in_seq in Hi.
      apply bool_decide_eq_false, Hnone. lia. }
    rewrite Hidx. split; [reflexivity|].
    apply Hfresh; [lia|]. intros i Hi Hdom. by destruct (Hnone i Hi).
Qed.

(** ** Starting a recording *)

(** C6, as the code has it.  [start_record()] tests the recording flag
    only: while recording it does nothing, so a second call in a row
    adds nothing to the first, and in a world reached from the initial
    state it does nothing exactly when the mode is RECORD.  Otherwise,
    when [next_path()] returns a path, it sets the mode to RECORD, raises
    the flag, empties the buffer, takes that path as destination, sets
    the status and logs the destination's name.  In a directory whose
    [raw_*.npy] names all have a three-digit index [next_path()] does
    return, and the path names no existing file. *)
Theorem start_record_effect (w : world) (p : string) :
  (recording (g w) = true -> start_record w = (Ret tt, w, [])) /\
  start_record (world_of (start_record w)) =
    (Ret tt, world_of (start_record w), []) /\
  (recording (g w) = false -> next_path (disk w) = Ret p ->
   start_record w =
     (Ret tt,
      {| g := {| running := running (g w); mode := RECORD; recording := true;
                 buffer := []; save_path := Some p;
                 last_saved := last_saved (g w) |};
         disk := disk w |},
      [StatusSet "● RECORDING";
       LogLine ("[RECORD] START → " +:+ os_path_basename p)])) /\
  (recording (g w) = false -> three_digit_names (disk w) ->
   exists q,
     os_path_exists (disk w) q = false /\
     start_record w =
       (Ret tt,
        {| g := {| running := running (g w); mode := RECORD; recording := true;
                   buffer := []; save_path := Some q;
                   last_saved := last_saved (g w) |};
           disk := disk w |},
        [StatusSet "● RECORDING";
         LogLine ("[RECORD] START → " +:+ os_path_basename q)])) /\
  (reachable w ->
   (start_record w = (Ret tt, w, []) <-> mode (g w) = RECORD)).
Proof.
  split; [apply start_record_recording|]. split.
  { apply start_record_recording.
    destruct (start_record_cases w) as (_ & _ & _ & [[-> H] | [_ H]]); exact H. }
  split; [apply start_record_spec|]. split.
  { intros Hrec Hd. destruct (next_path_three_digit (disk w) Hd) as [Hn Hfresh].
    eexists. split; [exact Hfresh|]. by apply start_record_spec. }
  intros Hr. destruct (reachable_flag_matches_mode w Hr) as [Hiff _]. split.
  - intros Heq. apply Hiff. destruct (recording (g w)) eqn:Hrec; [done|].
    destruct (start_record_cases w) as (_ & _ & _ & [[_ H] | [_ H]]);
      [congruence|].
    rewrite Heq in H. cbn in H. congruence.
  - intros Hm. apply start_record_recording. by apply Hiff.
Qed.

Lemma start_record_effect_witness :
  start_record (initial_world ∅) =
    (Ret tt,
     {| g := {| running := true; mode := RECORD; recording := true;
                buffer := []; save_path := Some "records/raw_000.npy";
                last_saved := None |};
        disk := ∅ |},
     [StatusSet "● RECORDING"; LogLine "[RECORD] START → raw_000.npy"]) /\
  start_record recording_world = (Ret tt, recording_world, []) /\
  (exists q,
     os_path_exists (disk two_files_world) q = false /\
     start_record two_files_world =
       (Ret tt,
        {| g := {| running := true; mode := RECORD; recording := true;
                   buffer := []; save_path := Some q; last_saved := None |};
           disk := disk two_files_world |},
        [StatusSet "● RECORDING";
         LogLine ("[RECORD] START → " +:+ os_path_basename q)])).
Proof.
  destruct (start_record_effect (initial_world ∅) "records/raw_000.npy")
    as (_ & _ & H & _).
  destruct (start_record_effect recording_world "") as (H' & _).
  destruct (start_record_effect two_files_world "") as (_ & _ & _ & H3 & _).
  split; [apply H; reflexivity|]. split; [apply H'; reflexivity|].
  apply H3; [reflexivity|].
  intros f Hf Hs He. unfold two_files_world in Hf. cbn [disk] in Hf.
  rewrite dom_insert_L, dom_singleton_L in Hf.
  rewrite elem_of_union, !elem_of_singleton in Hf.
  destruct Hf as [-> | ->].
  - exists 0%nat. split; [lia | reflexivity].
  - exists 1%nat. split; [lia | reflexivity].
Defined.

(** C6 as the specification words it fails twice.  With [raw_backup.npy]
    in the directory [start_record()] takes effect (mode RECORD, flag
    set, buffer emptied) and then raises in [next_path()]: no
    destination is assigned, no status is set and nothing is logged.
    With [raw_999.npy] and [raw_1000.npy] in the directory the
    destination it assigns is [raw_1000.npy], which exists already. *)
Lemma start_record_without_fresh_path :
  start_record backup_world =
    (Raise ValueError,
     {| g := {| running := true; mode := RECORD; recording := true;
                buffer := []; save_path := None; last_saved := None |};
        disk := disk backup_world |},
     []) /\
  save_path (g (world_of (start_record overflow_world))) =
    Some "records/raw_1000.npy" /\
  os_path_exists (disk overflow_world) "records/raw_1000.npy" = true.
Proof. vm_compute. repeat split; reflexivity. Qed.

(** ** Consecutive recordings *)

Lemma length_leader_frame (b : bus) : length (leader_frame b) = NUM_JOINTS.
Proof. unfold leader_frame. rewrite read_leader_eq. reflexivity. Qed.

Lemma ticks_recording (bs : list bus) :
  forall w : world,
    mode (g w) = RECORD ->
    recording (g w) = true ->
    result_of (ticks bs w) = Ret tt /\
    world_of (ticks bs w) =
      {| g := set_buffer (buffer (g w) ++ (leader_frame <$> bs)) (g w);
         disk := disk w |}.
Proof.
  induction bs as [|b bs IH]; intros w Hm Hrec.
  - cbn. rewrite app_nil_r. split; [done|]. by destruct w as [[] ?].
  - cbn [ticks]. unfold bind.
    rewrite robot_tick_mirror by (rewrite Hm; discriminate). rewrite Hrec.
    destruct (IH {| g := set_buffer (buffer (g w) ++ [leader_frame b]) (g w);
                    disk := disk w |}) as [Hr Hw]; [done | done |].
    destruct (ticks bs _) as [[r w'] t]. unfold result_of, world_of in *.
    cbn [fst snd g disk buffer set_buffer] in *. subst r w'.
    split; [done|]. by rewrite <- app_assoc.
Qed.

Lemma record_once_spec (bs : list bus) (w : world) (f : string) :
  bs <> [] ->
  recording (g w) = false ->
  next_path (disk w) = Ret (os_path_join RECORD_DIR f) ->
  endswith ".npy" f = true ->
  let out := record_once bs w in
  result_of out = Ret tt /\
  last_saved (g (world_of out)) = Some (os_path_join RECORD_DIR f) /\
  dom (disk (world_of out)) = {[ f ]} ∪ dom (disk w) /\
  recording (g (world_of out)) = false.
Proof.
  intros Hbs Hrec Hnext Hext. unfold record_once, bind.
  rewrite (start_record_spec w _ Hrec Hnext).
  destruct (ticks_recording bs
              {| g := started (os_path_join RECORD_DIR f) (g w);
                 disk := disk w |}) as [Hr Hw]; [done | done |].
  destruct (ticks bs _) as [[r w1] t1]. unfold result_of, world_of in Hr, Hw.
  cbn [fst snd g disk buffer started app] in Hr, Hw. subst r w1.
  destruct bs as [|b bs]; [done|].
  erewrite stop_record_saves;
    [| reflexivity | reflexivity
     | apply (np_array_int32_uniform NUM_JOINTS);
       [ cbn; lia
       | apply Forall_forall; intros q Hq;
         apply (proj1 (list_elem_of_fmap leader_frame (b :: bs) q)) in Hq
           as (b' & -> & _);
         apply length_leader_frame ]
     | cbn [g disk save_path set_buffer started]; unfold np_save;
       rewrite in_record_dir_join, Hext; reflexivity ].
  unfold result_of, world_of. cbn. rewrite dom_insert_L. done.
Qed.

Lemma names_S (k : nat) : names (S k) = {[ raw_file k ]} ∪ names k.
Proof.
  unfold names. rewrite seq_S, fmap_app, list_to_set_app_L.
  cbn [Nat.add fmap list_fmap list_to_set]. rewrite union_empty_r_L.
  apply union_comm_L.
Qed.

Lemma elem_of_names (k : nat) (f : string) :
  f ∈ names k <-> exists i, (i < k)%nat /\ f = raw_file i.
Proof.
  unfold names. rewrite elem_of_list_to_set, list_elem_of_fmap. split.
  - intros (i & -> & Hi). apply list_elem_of_In, in_seq in Hi.
    exists i. split; [lia | done].
  - intros (i & Hi & ->). exists i. split; [done|].
    apply list_elem_of_In, in_seq. lia.
Qed.

Lemma next_path_names (d : records) (k : nat) :
  dom d = names k -> (k <= 1000)%nat ->
  next_path d = Ret (os_path_join RECORD_DIR (raw_file k)).
Proof.
  intros Hdom Hk.
  assert (Hd : three_digit_names d).
  { intros f Hf _ _. rewrite Hdom in Hf. apply elem_of_names in Hf as (i & Hi & ->).
    exists i. split; [lia | done]. }
  destruct (next_path_three_digit d Hd) as [-> _]. do 3 f_equal.
  unfold allocate_index. rewrite Hdom.
  assert (Hiff : forall i, (i < 1000)%nat -> raw_file i ∈ names k -> (i < k)%nat).
  { intros i Hi Hin. apply elem_of_names in Hin as (j & Hj & Heq).
    apply raw_file_inj in Heq; [|lia..]. lia. }
  destruct k as [|k].
  - apply next_after_zero. intros i Hi. apply list_elem_of_In, in_seq in Hi.
    apply bool_decide_eq_false. intros Hin.
    specialize (Hiff i ltac:(lia) Hin). lia.
  - apply next_after_max.
    + apply list_elem_of_In, in_seq. lia.
    + apply bool_decide_eq_true, elem_of_names. exists k. split; [lia | done].
    + intros i Hi Hu. apply list_elem_of_In, in_seq in Hi.
      apply bool_decide_eq_true in Hu.
      specialize (Hiff i ltac:(lia) Hu). lia.
Qed.

Lemma recordings_names (ss : list (list bus)) :
  forall (k : nat) (w : world),
    Forall (fun bs => bs <> []) ss ->
    recording (g w) = false ->
    dom (disk w) = names k ->
    (k + length ss <= 1001)%nat ->
    (recordings ss w).1 =
      (fun i => Some (os_path_join RECORD_DIR (raw_file i))) <$> seq k (length ss) /\
    dom (disk (recordings ss w).2) = names (k + length ss) /\
    recording (g (recordings ss w).2) = false.
Proof.
  induction ss as [|b bs IH]; intros k w Hss Hrec Hdom Hk.
  - cbn. by rewrite Nat.add_0_r.
  - cbn [length] in Hk. cbn [recordings].
    apply Forall_cons in Hss as [Hb Hss].
    destruct (record_once_spec b w (raw_file k)) as (_ & Hl & Hd & Hr).
    + exact Hb.
    + exact Hrec.
    + apply next_path_names; [done | lia].
    + destruct (decide (k = 1000%nat)) as [-> | Hne];
        [apply raw_file_1000 | apply raw_file_facts; lia].
    + destruct (IH (S k) (world_of (record_once b w))) as (Hp & Hd' & Hr').
      * exact Hss.
      * exact Hr.
      * by rewrite Hd, Hdom, names_S.
      * lia.
      * destruct (recordings bs (world_of (record_once b w))) as [ps w2].
        cbn [fst snd length seq fmap list_fmap] in *.
        rewrite Hl, Hp, Hd', Hr'.
        by replace (k + S (length bs))%nat with (S k + length bs)%nat by lia.
Qed.

Lemma NoDup_raw_files (k n : nat) :
  (k + n <= 1001)%nat ->
  NoDup ((fun i => Some (os_path_join RECORD_DIR (raw_file i))) <$> seq k n).
Proof.
  intros Hk. apply NoDup_fmap_2_strong; [|apply NoDup_ListNoDup, seq_NoDup].
  intros i j Hi Hj Heq.
  apply list_elem_of_In, in_seq in Hi. apply list_elem_of_In, in_seq in Hj.
  apply (inj Some), os_path_join_inj in Heq.
  apply raw_file_inj in Heq; [done | lia | lia].
Qed.

(** C1, as the code has it.  In a directory whose [raw_*.npy] names all
    have a three-digit index, [next_path()] returns the path of index
    [max + 1] (index 0 when there is none), and no file has that name.
    From the empty directory, N recordings in a row, N up to 1001, are
    saved under the indices 0, 1, ..., N-1 in this order, all different,
    and leave exactly those N files; a recording counts when at least
    one tick of the loop falls in it. *)
Theorem next_path_sequential (d : records) (ss : list (list bus)) :
  (three_digit_names d ->
   next_path d = Ret (os_path_join RECORD_DIR (raw_file (allocate_index d))) /\
   os_path_exists d (os_path_join RECORD_DIR (raw_file (allocate_index d)))
     = false) /\
  (Forall (fun bs => bs <> []) ss -> (length ss <= 1001)%nat ->
   let out := recordings ss (initial_world ∅) in
   out.1 = (fun i => Some (os_path_join RECORD_DIR (raw_file i)))
             <$> seq 0 (length ss) /\
   NoDup out.1 /\
   dom (disk out.2) = names (length ss) /\
   size (dom (disk out.2)) = length ss).
Proof.
  split; [apply next_path_three_digit|].
  intros Hne Hn out. subst out.
  destruct (recordings_names ss 0 (initial_world ∅)) as (Hp & Hd & _);
    [done | done | done | cbn; lia |].
  cbn [Nat.add] in Hd. rewrite Hp, Hd.
  split; [done|]. split; [by apply NoDup_raw_files|]. split; [done|].
  unfold names. rewrite size_list_to_set, length_fmap, length_seq; [done|].
  apply NoDup_fmap_2_strong; [|apply NoDup_ListNoDup, seq_NoDup].
  intros i j Hi Hj Heq.
  apply list_elem_of_In, in_seq in Hi. apply list_elem_of_In, in_seq in Hj.
  apply raw_file_inj in Heq; [done | lia | lia].
Qed.

Lemma demo_dir_three_digit : three_digit_names demo_dir.
Proof.
  intros f Hf Hs He. unfold demo_dir in Hf.
  rewrite !dom_insert_L, dom_empty_L in Hf.
  rewrite !elem_of_union, !elem_of_singleton in Hf.
  destruct Hf as [-> | [-> | [-> | Hf]]].
  - exists 0%nat. split; [lia | reflexivity].
  - exists 7%nat. split; [lia | reflexivity].
  - discriminate Hs.
  - by apply not_elem_of_empty in Hf.
Defined.

Lemma next_path_sequential_witness :
  next_path demo_dir = Ret "records/raw_008.npy" /\
  (recordings [[quiet_bus]; [quiet_bus; timeout_bus]; [quiet_bus]]
     (initial_world ∅)).1 =
    [Some "records/raw_000.npy"; Some "records/raw_001.npy";
     Some "records/raw_002.npy"].
Proof.
  destruct (next_path_sequential demo_dir
              [[quiet_bus]; [quiet_bus; timeout_bus]; [quiet_bus]])
    as [H1 H2].
  split.
  - destruct (H1 demo_dir_three_digit) as [H _]. rewrite H.
    vm_compute. reflexivity.
  - destruct H2 as (Hp & _);
      [repeat constructor; discriminate | cbn; lia | exact Hp].
Defined.

Lemma next_path_dom (d d' : records) : dom d = dom d' -> next_path d = next_path d'.
Proof. intros H. unfold next_path, os_listdir. by rewrite H. Qed.

Lemma dom_dir_of (fs : list string) : dom (dir_of fs) = list_to_set fs.
Proof.
  unfold dir_of. rewrite dom_list_to_map_L, <- list_fmap_compose.
  by rewrite list_fmap_id.
Qed.

Lemma recordings_app (bs1 bs2 : list (list bus)) :
  forall w : world,
    recordings (bs1 ++ bs2) w =
      ((recordings bs1 w).1 ++ (recordings bs2 (recordings bs1 w).2).1,
       (recordings bs2 (recordings bs1 w).2).2).
Proof.
  induction bs1 as [|b bs1 IH]; intros w.
  - cbn. by destruct (recordings bs2 w).
  - cbn [app recordings]. rewrite IH.
    by destruct (recordings bs1 (world_of (record_once b w))).
Qed.

Lemma next_path_full : next_path (dir_of (raw_file <$> seq 0 1001)) =
                       Ret "records/raw_1000.npy".
Proof. vm_compute. reflexivity. Qed.

(** C1 as the specification words it fails twice.  With [raw_000.npy]
    and [raw_0020.npy] in the directory the result is index 003: the
    name sorted last is cut to its characters 4 to 6.  And from the empty
    directory the 1001st and the 1002nd recording are both saved as
    [raw_1000.npy], because [raw_999.npy] sorts after [raw_1000.npy]. *)
Lemma next_path_not_max_plus_one :
  next_path (dir_of ["raw_000.npy"; "raw_0020.npy"]) =
    Ret "records/raw_003.npy" /\
  (recordings (replicate 1002 [quiet_bus]) (initial_world ∅)).1 !! 1000%nat =
    Some (Some "records/raw_1000.npy") /\
  (recordings (replicate 1002 [quiet_bus]) (initial_world ∅)).1 !! 1001%nat =
    Some (Some "records/raw_1000.npy").
Proof.
  split; [vm_compute; reflexivity|].
  change 1002%nat with (1001 + 1)%nat.
  rewrite replicate_add, recordings_app. cbn [fst].
  destruct (recordings_names (replicate 1001 [quiet_bus]) 0 (initial_world ∅))
    as (Hp & Hd & Hr);
    [by apply Forall_replicate | done | done | rewrite length_replicate; lia |].
  rewrite length_replicate in Hp, Hd. cbn [Nat.add] in Hd.
  remember ((recordings (replicate 1001 [quiet_bus]) (initial_world ∅)).2)
    as w1 eqn:Ew1.
  clear Ew1.
  destruct (record_once_spec [quiet_bus] w1 "raw_1000.npy") as (_ & Hl & _).
  - done.
  - exact Hr.
  - rewrite (next_path_dom _ (dir_of (raw_file <$> seq 0 1001))).
    + apply next_path_full.
    + rewrite Hd, dom_dir_of. unfold names. reflexivity.
  - reflexivity.
  - rewrite Hp. split.
    + rewrite lookup_app_l by (rewrite length_fmap, length_seq; lia).
      rewrite list_lookup_fmap, lookup_seq_lt by lia. reflexivity.
    + rewrite lookup_app_r by (rewrite length_fmap, length_seq; lia).
      rewrite length_fmap, length_seq. cbn [replicate recordings fst].
      replace (1001 - 1001)%nat with 0%nat by lia.
      cbn [lookup list_lookup]. rewrite Hl. reflexivity.
Qed.

(** * Further properties of the code *)

(** ** Mirroring *)

Lemma leader_frame_eq (b : bus) : leader_frame b = leader_data b <$> JOINT_IDS.
Proof. unfold leader_frame. by rewrite read_leader_eq. Qed.

Lemma leader_reads_eq (b : bus) :
  leader_reads b =
    (fun id => TxRead leader_port id ADDR_PRESENT_POSITION) <$> JOINT_IDS.
Proof. unfold leader_reads. by rewrite read_leader_eq. Qed.

(** X1: outside REPLAY a tick reads the six joints of the leader in the
    order of [JOINT_IDS] and then commands each joint of the follower
    to the data read for the joint of the same identifier, then sleeps
    one period. *)
Theorem robot_tick_mirrors (b : bus) (w : world) :
  mode (g w) <> REPLAY ->
  trace_of (robot_tick b w) =
    ((fun id => TxRead leader_port id ADDR_PRESENT_POSITION) <$> JOINT_IDS) ++
    ((fun id => TxWrite follower_port id ADDR_GOAL_POSITION (leader_data b id))
       <$> JOINT_IDS) ++
    [Sleep DT].
Proof.
  intros Hm. rewrite robot_tick_mirror by done. unfold trace_of. cbn [snd].
  rewrite leader_reads_eq, leader_frame_eq. reflexivity.
Qed.

Lemma robot_tick_mirrors_witness :
  trace_of (robot_tick word_bus_a (initial_world ∅)) =
    [TxRead leader_port 1 56; TxRead leader_port 2 56; TxRead leader_port 3 56;
     TxRead leader_port 4 56; TxRead leader_port 5 56; TxRead leader_port 6 56;
     TxWrite follower_port 1 42 2001; TxWrite follower_port 2 42 2002;
     TxWrite follower_port 3 42 2003; TxWrite follower_port 4 42 2004;
     TxWrite follower_port 5 42 2005; TxWrite follower_port 6 42 2006;
     Sleep 20].
Proof.
  apply (robot_tick_mirrors word_bus_a (initial_world ∅)). discriminate.
Defined.

(** X2: a tick in REPLAY issues no bus transaction and changes nothing,
    and a tick in any mode leaves the mode, the flags, both paths and
    the files as they were: the loop writes to the buffer only. *)
Theorem robot_tick_only_buffer (b : bus) (w : world) :
  (mode (g w) = REPLAY -> robot_tick b w = (Ret tt, w, [Sleep DT])) /\
  (recording (g w) = false -> world_of (robot_tick b w) = w) /\
  same_control w (world_of (robot_tick b w)).
Proof.
  split; [apply robot_tick_replay|]. split; [|apply robot_tick_same_control].
  intros Hrec. destruct (decide (mode (g w) = REPLAY)) as [H|H].
  - by rewrite robot_tick_replay.
  - rewrite robot_tick_mirror by done. by rewrite Hrec.
Qed.

Lemma robot_tick_only_buffer_witness :
  robot_tick timeout_bus
    {| g := set_mode REPLAY initial_globals; disk := ∅ |} =
    (Ret tt, {| g := set_mode REPLAY initial_globals; disk := ∅ |}, [Sleep DT]) /\
  world_of (robot_tick timeout_bus (initial_world ∅)) = initial_world ∅.
Proof.
  split.
  - apply (robot_tick_only_buffer timeout_bus
             {| g := set_mode REPLAY initial_globals; disk := ∅ |}).
    reflexivity.
  - apply (robot_tick_only_buffer timeout_bus (initial_world ∅)). reflexivity.
Defined.

(** ** A whole recording *)

Lemma ticks_recording_trace (bs : list bus) :
  forall w : world,
    mode (g w) = RECORD ->
    recording (g w) = true ->
    ticks bs w =
      (Ret tt,
       {| g := set_buffer (buffer (g w) ++ (leader_frame <$> bs)) (g w);
          disk := disk w |},
       ticks_trace bs).
Proof.
  induction bs as [|b bs IH]; intros w Hm Hrec.
  - cbn. rewrite app_nil_r. by destruct w as [[] ?].
  - cbn [ticks]. unfold bind.
    rewrite robot_tick_mirror by (rewrite Hm; discriminate). rewrite Hrec.
    rewrite IH by done. cbn [g disk buffer set_buffer fmap list_fmap].
    rewrite <- app_assoc. reflexivity.
Qed.

Lemma length_leader_frames (bs : list bus) :
  Forall (fun q => length q = NUM_JOINTS) (leader_frame <$> bs).
Proof.
  apply Forall_forall. intros q Hq.
  apply list_elem_of_fmap in Hq as (b & -> & _). apply length_leader_frame.
Qed.

Lemma np_array_int32_frames (T : list (list Z)) :
  T <> [] ->
  Forall (fun q => length q = NUM_JOINTS) T ->
  np_array_int32 T = Ret (stored T).
Proof.
  intros Hne Hn. apply np_array_int32_uniform; [|done].
  destruct T; [done | cbn; lia].
Qed.

Lemma stop_record_saves_buffer (w : world) (T : list (list Z)) (a : file)
    (d' : records) :
  recording (g w) = true ->
  buffer (g w) = T ->
  T <> [] ->
  np_array_int32 T = Ret a ->
  np_save (disk w) (save_path (g w)) a = Ret d' ->
  stop_record w =
    (Ret tt,
     {| g := set_buffer []
               (set_last_saved (save_path (g w))
                  (set_mode TELEOP (set_recording false (g w))));
        disk := d' |},
     [StatusSet "IDLE"; LogLine (saved_log (length T))]).
Proof.
  intros Hrec Hbuf Hne Ha Hs. destruct T as [|q buf]; [done|].
  by rewrite (stop_record_saves w q buf a d').
Qed.

Lemma record_once_eq (bs : list bus) (w : world) (f : string) :
  bs <> [] ->
  recording (g w) = false ->
  next_path (disk w) = Ret (os_path_join RECORD_DIR f) ->
  endswith ".npy" f = true ->
  record_once bs w =
    (Ret tt,
     {| g := {| running := running (g w); mode := TELEOP; recording := false;
                buffer := [];
                save_path := Some (os_path_join RECORD_DIR f);
                last_saved := Some (os_path_join RECORD_DIR f) |};
        disk := <[f := stored (leader_frame <$> bs)]> (disk w) |},
     [StatusSet "● RECORDING"; LogLine ("[RECORD] START → " +:+ f)] ++
     ticks_trace bs ++
     [StatusSet "IDLE"; LogLine (saved_log (length bs))]).
Proof.
  intros Hbs Hrec Hnext Hext. unfold record_once, bind.
  rewrite (start_record_spec w _ Hrec Hnext), os_path_basename_join.
  rewrite ticks_recording_trace by done.
  cbn [g disk buffer started set_buffer app].
  assert (Hne : leader_frame <$> bs <> []) by (by destruct bs).
  erewrite (stop_record_saves_buffer _ (leader_frame <$> bs));
    [| reflexivity | reflexivity | exact Hne
     | apply np_array_int32_frames; [done | apply length_leader_frames]
     | cbn [g disk save_path set_buffer started]; unfold np_save;
       rewrite in_record_dir_join, Hext; reflexivity ].
  cbn [g disk buffer save_path set_buffer set_last_saved set_mode
       set_recording started running last_saved mode recording].
  rewrite length_fmap. reflexivity.
Qed.

Lemma filter_log_ticks (bs : list bus) :
  List.filter is_log (ticks_trace bs) = [].
Proof.
  unfold ticks_trace. induction bs as [|b bs IH]; [reflexivity|].
  cbn [fmap list_fmap concat]. rewrite List.filter_app, IH.
  unfold tick_trace. by rewrite filter_log_tick.
Qed.

Lemma filter_write_tick (b : bus) :
  List.filter is_follower_write (tick_trace b) = frame_writes (leader_frame b).
Proof.
  unfold tick_trace. rewrite !List.filter_app, filter_write_frame_writes.
  rewrite leader_reads_eq. cbn. by rewrite app_nil_r.
Qed.

Lemma filter_write_ticks (bs : list bus) :
  List.filter is_follower_write (ticks_trace bs) =
    concat (frame_writes <$> (leader_frame <$> bs)).
Proof.
  unfold ticks_trace. induction bs as [|b bs IH]; [reflexivity|].
  cbn [fmap list_fmap concat]. by rewrite List.filter_app, IH, filter_write_tick.
Qed.

Lemma word_bus_int32 (b : bus) : word_bus b -> Forall is_int32 (leader_frame b).
Proof.
  intros Hb. rewrite leader_frame_eq. apply Forall_fmap, Forall_forall.
  intros id Hid. specialize (Hb id Hid). unfold is_int32. cbn. lia.
Qed.

Lemma np_load_stored (d : records) (T : list (list Z)) (f : string) :
  Forall (fun q => length q = NUM_JOINTS) T ->
  Forall (Forall is_int32) T ->
  np_load (<[f := stored T]> d) (os_path_join RECORD_DIR f) = Ret T.
Proof.
  intros Hn Hr. unfold stored.
  rewrite (np_load_npy _ _ f (length T) NUM_JOINTS (int32 <$> concat T)).
  - rewrite fmap_int32_id by (by apply Forall_concat). by rewrite rows_of_concat.
  - apply in_record_dir_join.
  - apply lookup_insert_eq.
  - rewrite length_fmap. by apply length_concat_rows.
Qed.

(** X3: a recording of n ticks, n at least 1, stores one array of n rows
    and [NUM_JOINTS] columns under the path [next_path()] gave, the rows
    being the frames read from the leader in tick order; it logs the
    start and the count n, ends in TELEOP with an empty buffer and
    [last_saved] on that path.  When the bus data are two-byte words,
    loading the file gives back the frames as read. *)
Theorem recording_stores_one_row_per_tick (bs : list bus) (w : world)
    (f : string) :
  bs <> [] ->
  recording (g w) = false ->
  next_path (disk w) = Ret (os_path_join RECORD_DIR f) ->
  endswith ".npy" f = true ->
  let out := record_once bs w in
  result_of out = Ret tt /\
  disk (world_of out) =
    <[f := Npy (length bs) NUM_JOINTS (int32 <$> concat (leader_frame <$> bs))]>
      (disk w) /\
  g (world_of out) =
    {| running := running (g w); mode := TELEOP; recording := false;
       buffer := []; save_path := Some (os_path_join RECORD_DIR f);
       last_saved := Some (os_path_join RECORD_DIR f) |} /\
  List.filter is_log (trace_of out) =
    [LogLine ("[RECORD] START → " +:+ f);
     LogLine ("[RECORD] SAVED (" +:+ str_nat (length bs) +:+ " frames)")] /\
  (Forall word_bus bs ->
   np_load (disk (world_of out)) (os_path_join RECORD_DIR f) =
     Ret (leader_frame <$> bs)).
Proof.
  intros Hbs Hrec Hnext Hext out. subst out.
  rewrite (record_once_eq bs w f Hbs Hrec Hnext Hext).
  unfold result_of, world_of, trace_of. cbn [fst snd g disk].
  split; [done|]. split; [unfold stored; by rewrite length_fmap|].
  split; [done|]. split.
  - cbn. rewrite List.filter_app, filter_log_ticks. reflexivity.
  - intros Hw. apply np_load_stored; [apply length_leader_frames|].
    apply Forall_fmap. eapply Forall_impl; [exact Hw|].
    intros b Hb. by apply word_bus_int32.
Qed.

Lemma word_bus_a_ok : word_bus word_bus_a.
Proof.
  intros id Hid. unfold leader_data, word_bus_a. cbn.
  assert (1 <= id <= 6); [|lia].
  unfold JOINT_IDS in Hid.
  repeat (apply elem_of_cons in Hid as [-> | Hid]; [lia|]).
  by apply elem_of_nil in Hid.
Defined.

Lemma recording_stores_one_row_per_tick_witness :
  disk (world_of (record_once [word_bus_a; word_bus_a] (initial_world ∅))) =
    <["raw_000.npy" :=
        Npy 2 NUM_JOINTS
          (int32 <$> concat (leader_frame <$> [word_bus_a; word_bus_a]))]> ∅ /\
  np_load (disk (world_of (record_once [word_bus_a; word_bus_a]
                             (initial_world ∅)))) "records/raw_000.npy" =
    Ret (leader_frame <$> [word_bus_a; word_bus_a]).
Proof.
  destruct (recording_stores_one_row_per_tick [word_bus_a; word_bus_a]
              (initial_world ∅) "raw_000.npy")
    as (_ & Hd & _ & _ & Hl);
    [discriminate | reflexivity | reflexivity | reflexivity |].
  split; [exact Hd|].
  apply Hl. repeat (constructor; [apply word_bus_a_ok|]). constructor.
Defined.

(** X4: after a recording on a bus of two-byte words, [replay()] sends
    to the follower the same register writes, in the same order, as the
    ticks of the recording did, one sleep per recorded tick, and ends in
    TELEOP. *)
Theorem replay_repeats_recording (bs : list bus) (bs' : nat -> bus)
    (w : world) (f : string) :
  bs <> [] ->
  Forall word_bus bs ->
  recording (g w) = false ->
  next_path (disk w) = Ret (os_path_join RECORD_DIR f) ->
  endswith ".npy" f = true ->
  let w1 := world_of (record_once bs w) in
  result_of (replay bs' w1) = Ret tt /\
  List.filter is_follower_write (trace_of (replay bs' w1)) =
    List.filter is_follower_write (trace_of (record_once bs w)) /\
  length (List.filter is_sleep (trace_of (replay bs' w1))) = length bs /\
  mode (g (world_of (replay bs' w1))) = TELEOP.
Proof.
  intros Hbs Hw Hrec Hnext Hext w1.
  destruct (recording_stores_one_row_per_tick bs w f Hbs Hrec Hnext Hext)
    as (_ & Hd & Hg & _ & Hl).
  specialize (Hl Hw). fold w1 in Hd, Hg, Hl.
  assert (Ht : replay_target w1 (os_path_join RECORD_DIR f)).
  { apply target_last_saved; [by rewrite Hg|].
    rewrite os_path_exists_join, Hd. apply bool_decide_eq_true.
    rewrite dom_insert_L. set_solver. }
  assert (Hrec1 : recording (g w1) = false) by (by rewrite Hg).
  rewrite (replay_spec bs' w1 _ _ Hrec1 Ht Hl).
  unfold result_of, world_of, trace_of. cbn [fst snd g].
  destruct (replay_trace_filters (os_path_join RECORD_DIR f) (leader_frame <$> bs))
    as [Hwr Hsl].
  rewrite Hwr, Hsl, length_fmap.
  split; [done|]. split; [|done].
  rewrite (record_once_eq bs w f Hbs Hrec Hnext Hext). cbn [snd].
  cbn [app List.filter is_follower_write].
  rewrite List.filter_app, filter_write_ticks. cbn. by rewrite app_nil_r.
Qed.

Lemma replay_repeats_recording_witness :
  List.filter is_follower_write
    (trace_of (replay (fun _ => quiet_bus)
                 (world_of (record_once [word_bus_a] (initial_world ∅))))) =
  List.filter is_follower_write
    (trace_of (record_once [word_bus_a] (initial_world ∅))).
Proof.
  destruct (replay_repeats_recording [word_bus_a] (fun _ => quiet_bus)
              (initial_world ∅) "raw_000.npy")
    as (_ & H & _);
    [discriminate | constructor; [apply word_bus_a_ok | constructor]
     | reflexivity | reflexivity | reflexivity |].
  exact H.
Defined.

(** X5: a [start_record()] directly followed by [stop_record()], with no
    tick in between, writes no file and leaves [last_saved] as it was;
    it logs the start and "STOP (no frames)", and the next
    [start_record()] is given the same path again. *)
Theorem empty_recording_leaves_no_file (w : world) (p : string) :
  recording (g w) = false ->
  next_path (disk w) = Ret p ->
  let out := (start_record ;; stop_record) w in
  result_of out = Ret tt /\
  disk (world_of out) = disk w /\
  g (world_of out) =
    {| running := running (g w); mode := TELEOP; recording := false;
       buffer := []; save_path := Some p; last_saved := last_saved (g w) |} /\
  trace_of out =
    [StatusSet "● RECORDING";
     LogLine ("[RECORD] START → " +:+ os_path_basename p);
     StatusSet "IDLE"; LogLine "[RECORD] STOP (no frames)"] /\
  save_path (g (world_of (start_record (world_of out)))) = Some p.
Proof.
  intros Hrec Hnext out. subst out. unfold bind.
  rewrite (start_record_spec w p Hrec Hnext).
  rewrite stop_record_empty by reflexivity.
  unfold result_of, world_of, trace_of. cbn [fst snd g disk].
  repeat (split; [reflexivity|]).
  by rewrite (start_record_spec _ p) by done.
Qed.

Lemma empty_recording_leaves_no_file_witness :
  disk (world_of ((start_record ;; stop_record) two_files_world)) =
    disk two_files_world /\
  last_saved (g (world_of ((start_record ;; stop_record) two_files_world))) =
    None.
Proof.
  destruct (empty_recording_leaves_no_file two_files_world "records/raw_002.npy")
    as (_ & Hd & Hg & _); [reflexivity | vm_compute; reflexivity |].
  split; [exact Hd | by rewrite Hg].
Defined.

(** X6: [quit_all()] in the middle of a recording saves nothing: the
    frames read so far stay in the buffer, the directory and
    [last_saved] are as before the recording, and [running] is false. *)
Theorem quit_discards_recording (bs : list bus) (w : world) (p : string) :
  recording (g w) = false ->
  next_path (disk w) = Ret p ->
  let out := (start_record ;; ticks bs ;; quit_all) w in
  result_of out = Ret tt /\
  disk (world_of out) = disk w /\
  g (world_of out) =
    {| running := false; mode := RECORD; recording := true;
       buffer := leader_frame <$> bs; save_path := Some p;
       last_saved := last_saved (g w) |} /\
  List.filter is_log (trace_of out) =
    [LogLine ("[RECORD] START → " +:+ os_path_basename p)].
Proof.
  intros Hrec Hnext out. subst out. unfold bind.
  rewrite (start_record_spec w p Hrec Hnext).
  rewrite ticks_recording_trace by reflexivity. rewrite quit_all_spec.
  unfold result_of, world_of, trace_of. cbn [fst snd g disk].
  repeat (split; [reflexivity|]).
  cbn. rewrite List.filter_app, filter_log_ticks. reflexivity.
Qed.

Lemma quit_discards_recording_witness :
  disk (world_of ((start_record ;; ticks [word_bus_a] ;; quit_all)
                    (initial_world ∅))) = ∅ /\
  buffer (g (world_of ((start_record ;; ticks [word_bus_a] ;; quit_all)
                         (initial_world ∅)))) = [leader_frame word_bus_a].
Proof.
  destruct (quit_discards_recording [word_bus_a] (initial_world ∅)
              "records/raw_000.npy")
    as (_ & Hd & Hg & _); [reflexivity | reflexivity |].
  split; [exact Hd | by rewrite Hg].
Defined.

(** ** What the callbacks touch *)

Lemma noop_safety_aux (bs : nat -> bus) (w : world) :
  recording (g w) = true ->
  replay bs w = (Ret tt, w, [LogLine "[WARN] stop record before replay"]).
Proof. intros H. unfold replay. run_monad. by rewrite H. Qed.

Lemma set_mode_same (gl : globals) : set_mode (mode gl) gl = gl.
Proof. by destruct gl. Qed.

Lemma set_last_saved_same (gl : globals) : set_last_saved (last_saved gl) gl = gl.
Proof. by destruct gl. Qed.

Lemma replay_play_shape (bs : nat -> bus) (w : world) :
  exists m, world_of (replay_play bs w) =
            {| g := set_mode m (g w); disk := disk w |}.
Proof.
  destruct (last_saved (g w)) as [p|] eqn:Hls.
  - destruct (np_load (disk w) p) as [seq|e] eqn:Hload.
    + exists TELEOP. by rewrite (replay_play_spec bs w p seq).
    + exists (mode (g w)). rewrite (replay_play_raise bs w p e) by done.
      cbn. by rewrite set_mode_same, world_eta.
  - exists (mode (g w)). unfold replay_play. run_monad. rewrite Hls. cbn.
    by rewrite set_mode_same, world_eta.
Qed.

Lemma replay_shape (bs : nat -> bus) (w : world) :
  exists m l, world_of (replay bs w) =
              {| g := set_mode m (set_last_saved l (g w)); disk := disk w |}.
Proof.
  destruct (recording (g w)) eqn:Hrec.
  - exists (mode (g w)), (last_saved (g w)).
    rewrite (noop_safety_aux bs w Hrec). cbn.
    by rewrite set_last_saved_same, set_mode_same, world_eta.
  - rewrite (replay_not_recording bs w Hrec). unfold replay_body. run_monad.
    destruct (match last_saved (g w) with
              | Some p => negb (os_path_exists (disk w) p)
              | None => true
              end).
    + destruct (last (persisted_files (disk w))) as [f|].
      * run_monad. rewrite !triple_eta.
        destruct (replay_play_shape bs
                    {| g := set_last_saved (Some f) (g w); disk := disk w |})
          as [m Hm].
        exists m, (Some f). exact Hm.
      * exists (mode (g w)), (last_saved (g w)). cbn.
        by rewrite set_last_saved_same, set_mode_same, world_eta.
    + rewrite ?triple_eta, ?world_eta.
      destruct (replay_play_shape bs w) as [m Hm].
      exists m, (last_saved (g w)). by rewrite set_last_saved_same.
Qed.

Lemma loop_iteration_shape (b : bus) (w : world) :
  world_of (loop_iteration b w) = w \/
  recording (g w) = true /\
  world_of (loop_iteration b w) =
    {| g := set_buffer (buffer (g w) ++ [leader_frame b]) (g w);
       disk := disk w |}.
Proof.
  unfold loop_iteration. run_monad. destruct (running (g w)); [|by left].
  rewrite triple_eta. destruct (decide (mode (g w) = REPLAY)) as [H|H].
  - left. by rewrite robot_tick_replay.
  - rewrite robot_tick_mirror by done.
    destruct (recording (g w)); [right | left]; done.
Qed.

Lemma append_assoc (a b c : string) : (a +:+ b) +:+ c = a +:+ (b +:+ c).
Proof.
  induction a as [|x a IH]; [reflexivity|].
  change (String x a +:+ b) with (String x (a +:+ b)).
  change (String x (a +:+ b) +:+ c) with (String x ((a +:+ b) +:+ c)).
  by rewrite IH.
Qed.

Lemma endswith_append (s p : string) : endswith p (s +:+ p) = true.
Proof.
  unfold endswith. rewrite length_append.
  replace (String.length s + String.length p - String.length p)%nat
    with (String.length s) by lia.
  rewrite substring_append, String.eqb_refl.
  rewrite andb_true_r. apply Nat.leb_le. lia.
Qed.

Lemma next_path_built (d : records) (p : string) :
  next_path d = Ret p -> built_path p.
Proof.
  unfold next_path. intros H.
  destruct (last (sorted _)) as [f|].
  - destruct (int (slice 4 7 f)) as [z|e]; [|discriminate].
    cbn in H. injection H as <-. by exists (z + 1).
  - cbn in H. injection H as <-. by exists 0.
Qed.

Lemma built_path_counted (p : string) :
  built_path p ->
  exists f, p = os_path_join RECORD_DIR f /\ in_record_dir p = Some f /\
            startswith "raw_" f = true /\ endswith ".npy" f = true.
Proof.
  intros [z ->]. eexists. split; [reflexivity|].
  split; [apply in_record_dir_join|]. split.
  - apply prefix_append.
  - rewrite <- append_assoc. apply endswith_append.
Qed.

Lemma is_int32_int32 (z : Z) : is_int32 (int32 z).
Proof.
  unfold is_int32, int32.
  pose proof (Z.mod_pos_bound (z + 2 ^ 31) (2 ^ 32) ltac:(lia)). lia.
Qed.

Lemma well_shaped_stored (T : list (list Z)) :
  T <> [] ->
  Forall (fun q => length q = NUM_JOINTS) T ->
  well_shaped (stored T).
Proof.
  intros Hne Hn. unfold stored, well_shaped.
  split; [done|]. split; [destruct T; [done | cbn; lia]|].
  split; [rewrite length_fmap; by apply length_concat_rows|].
  apply Forall_fmap, Forall_forall. intros z _. apply is_int32_int32.
Qed.

(** The outcomes of [stop_record()] on the directory and the buffer. *)
Lemma stop_record_shape (w : world) :
  let w' := world_of (stop_record w) in
  save_path (g w') = save_path (g w) /\
  running (g w') = running (g w) /\
  (buffer (g w') = buffer (g w) \/ buffer (g w') = []) /\
  (disk w' = disk w \/
   exists p f a,
     recording (g w) = true /\ buffer (g w) <> [] /\
     save_path (g w) = Some p /\ in_record_dir p = Some f /\
     np_array_int32 (buffer (g w)) = Ret a /\
     last_saved (g w') = Some p /\ buffer (g w') = [] /\
     disk w' = <[(if endswith ".npy" f then f else f +:+ ".npy") := a]> (disk w)).
Proof.
  destruct (recording (g w)) eqn:Hrec;
    [|rewrite stop_record_idle by done; cbn; auto 10].
  destruct (buffer (g w)) as [|q buf] eqn:Hbuf;
    [rewrite stop_record_empty by done; cbn; auto 10|].
  destruct (np_array_int32 (q :: buf)) as [a|e] eqn:Ha.
  - destruct (np_save (disk w) (save_path (g w)) a) as [d'|e] eqn:Hs.
    + rewrite (stop_record_saves w q buf a d') by done. cbn.
      split; [done|]. split; [done|]. split; [by right|].
      unfold np_save in Hs. destruct (save_path (g w)) as [p|]; [|discriminate].
      destruct (in_record_dir p) as [f|] eqn:Hp.
      * right. exists p, f, a. injection Hs as <-. repeat split; done.
      * left. by injection Hs as <-.
    + unfold stop_record. run_monad. rewrite Hrec. cbn. rewrite Hbuf. cbn.
      rewrite Ha. cbn. rewrite Hs. cbn. rewrite ?Hbuf. auto 10.
  - unfold stop_record. run_monad. rewrite Hrec. cbn. rewrite Hbuf. cbn.
    rewrite Ha. cbn. rewrite ?Hbuf. auto 10.
Qed.

Lemma start_record_shape (w : world) :
  world_of (start_record w) = w \/
  (exists p, next_path (disk w) = Ret p /\
             world_of (start_record w) =
               {| g := started p (g w); disk := disk w |}) \/
  world_of (start_record w) =
    {| g := set_buffer [] (set_recording true (set_mode RECORD (g w)));
       disk := disk w |}.
Proof.
  destruct (recording (g w)) eqn:Hrec.
  - left. by rewrite start_record_recording.
  - destruct (next_path (disk w)) as [p|e] eqn:Hn.
    + right. left. exists p. by rewrite (start_record_spec w p).
    + right. right. by rewrite (start_record_raise w e).
Qed.

Lemma step_disk (a : action) (w : world) :
  a <> Call CStopRecord -> disk (world_of (step a w)) = disk w.
Proof.
  intros Ha. destruct a as [b | [| | bs |]]; cbn [step run_command]; [| |done| |].
  - by destruct (loop_iteration_same_control b w) as (_ & _ & _ & _ & _ & ->).
  - by destruct (start_record_cases w) as (-> & _).
  - by destruct (replay_cases bs w) as (-> & _).
  - by rewrite quit_all_spec.
Qed.

Lemma step_dom (a : action) (w : world) :
  dom (disk w) ⊆ dom (disk (world_of (step a w))).
Proof.
  destruct a as [b | [| | bs |]];
    try (rewrite step_disk by discriminate; done).
  cbn [step run_command].
  destruct (stop_record_shape w) as (_ & _ & _ & [-> | (p & f & a & H)]);
    [done|].
  destruct H as (_ & _ & _ & _ & _ & _ & _ & ->). rewrite dom_insert_L.
  set_solver.
Qed.

(** X7: no callback and no tick ever removes a file, only
    [stop_record()] writes one, and the only file it can change is the
    one that [save_path] names (with [.npy] appended when the name lacks
    it, as [np.save] does). *)
Theorem only_stop_record_writes (w : world) :
  (forall a, a <> Call CStopRecord -> disk (world_of (step a w)) = disk w) /\
  (forall f, disk (world_of (stop_record w)) !! f <> disk w !! f ->
     exists p f0, save_path (g w) = Some p /\ in_record_dir p = Some f0 /\
                  f = if endswith ".npy" f0 then f0 else f0 +:+ ".npy") /\
  (forall sched, dom (disk w) ⊆ dom (disk (run sched w))).
Proof.
  split; [intros a; apply step_disk|]. split.
  - intros f Hf.
    destruct (stop_record_shape w) as (_ & _ & _ & [Hd | (p & f' & a & H)]);
      [by rewrite Hd in Hf|].
    destruct H as (_ & _ & Hsp & Hp & _ & _ & _ & Hd).
    exists p, f'. split; [done|]. split; [done|].
    destruct (decide ((if endswith ".npy" f' then f' else f' +:+ ".npy") = f))
      as [<- | Hne]; [done|].
    rewrite Hd, lookup_insert_ne in Hf; done.
  - intros sched. revert w. induction sched as [|a sched IH]; intros w; [done|].
    cbn [run]. etrans; [apply step_dom | apply IH].
Qed.

Lemma only_stop_record_writes_witness :
  disk (world_of (step (Call (CReplay (fun _ => quiet_bus))) two_files_world)) =
    disk two_files_world /\
  dom (disk two_files_world) ⊆
    dom (disk (run [Call CStartRecord; Tick word_bus_a; Call CStopRecord]
                 two_files_world)).
Proof.
  destruct (only_stop_record_writes two_files_world) as (H1 & _ & H3).
  split; [apply H1; discriminate | apply H3].
Defined.

(** ** What the program writes *)

Lemma kept_initial (d : records) : kept d (initial_world d).
Proof.
  split; [constructor|]. split; [discriminate|]. intros f fl H. by left.
Qed.

Lemma kept_same (d0 : records) (w w' : world) :
  kept d0 w ->
  buffer (g w') = buffer (g w) \/ buffer (g w') = [] ->
  save_path (g w') = save_path (g w) ->
  disk w' = disk w ->
  kept d0 w'.
Proof.
  intros (Hb & Hs & Hd) Hb' Hs' Hd'. unfold kept. rewrite Hs', Hd'.
  split; [|done]. destruct Hb' as [-> | ->]; [done | constructor].
Qed.

Lemma step_kept (d0 : records) (a : action) (w : world) :
  kept d0 w -> kept d0 (world_of (step a w)).
Proof.
  intros Hk. destruct a as [b | [| | bs |]]; cbn [step run_command].
  - destruct (loop_iteration_shape b w) as [-> | [_ ->]]; [done|].
    destruct Hk as (Hb & Hs & Hd). split; [|done]. cbn.
    apply Forall_app. split; [done|]. constructor; [|constructor].
    apply length_leader_frame.
  - destruct (start_record_shape w) as [-> | [(p & Hn & ->) | ->]]; [done | |].
    + destruct Hk as (Hb & Hs & Hd). split; [constructor|]. split; [|done].
      cbn. intros p' [= <-]. by apply (next_path_built (disk w)).
    + apply (kept_same d0 w); [done | by right | done | done].
  - destruct (stop_record_shape w) as (Hsp & _ & Hbuf & [Hd | H]).
    + by apply (kept_same d0 w).
    + destruct H as (p & f & a & _ & Hne & Hp & Hf & Ha & _ & Hb' & Hd).
      destruct Hk as (Hb & Hs & Hdisk).
      destruct (built_path_counted p (Hs p Hp)) as (f' & -> & Hf' & Hpre & Hext).
      rewrite Hf' in Hf. injection Hf as <-. rewrite Hext in Hd.
      rewrite (np_array_int32_frames _ Hne Hb) in Ha. injection Ha as <-.
      split; [rewrite Hb'; constructor|]. split; [by rewrite Hsp|].
      intros f fl. rewrite Hd. destruct (decide (f' = f)) as [<- | Hne'].
      * rewrite lookup_insert_eq. intros [= <-]. right.
        split; [unfold counted; by rewrite Hpre, Hext|].
        by apply well_shaped_stored.
      * rewrite lookup_insert_ne by done. apply Hdisk.
  - destruct (replay_shape bs w) as (m & l & ->). by apply (kept_same d0 w); [|left|..].
  - rewrite quit_all_spec. by apply (kept_same d0 w); [|left|..].
Qed.

Lemma run_kept (d0 : records) (sched : list action) :
  forall w, kept d0 w -> kept d0 (run sched w).
Proof.
  induction sched as [|a sched IH]; intros w Hk; [done|].
  cbn [run]. by apply IH, step_kept.
Qed.

(** X8: whatever the callbacks and ticks do from the initial state,
    every file that differs from the directory the program started with
    has a name that [next_path()] counts ([raw_...npy]) and is an array
    of at least one row, [NUM_JOINTS] columns and signed 32-bit
    elements; every frame in the buffer has [NUM_JOINTS] entries, and
    [save_path] is unset or a path that [next_path()] built. *)
Theorem program_writes_well_shaped_files (d : records) (sched : list action) :
  let w := run sched (initial_world d) in
  Forall (fun q => length q = NUM_JOINTS) (buffer (g w)) /\
  (forall p, save_path (g w) = Some p ->
     exists z, p = os_path_join RECORD_DIR ("raw_" +:+ format_03d z +:+ ".npy")) /\
  (forall f fl, disk w !! f = Some fl ->
     d !! f = Some fl \/
     (startswith "raw_" f && endswith ".npy" f = true) /\
     exists r data,
       fl = Npy r NUM_JOINTS data /\ (1 <= r)%nat /\
       length data = (r * NUM_JOINTS)%nat /\ Forall is_int32 data).
Proof.
  destruct (run_kept d sched (initial_world d) (kept_initial d))
    as (Hb & Hs & Hd).
  split; [exact Hb|]. split; [exact Hs|].
  intros f fl Hf. destruct (Hd f fl Hf) as [H | [Hc Hw]]; [by left|].
  right. split; [exact Hc|].
  destruct fl as [r c data|]; [|done].
  destruct Hw as (-> & Hr & Hl & Hi). by exists r, data.
Qed.

Lemma program_writes_well_shaped_files_witness :
  exists r data,
    disk (run [Call CStartRecord; Tick word_bus_a; Tick timeout_bus;
               Call CStopRecord] (initial_world ∅)) !! "raw_000.npy" =
      Some (Npy r NUM_JOINTS data) /\
    (1 <= r)%nat /\ length data = (r * NUM_JOINTS)%nat /\
    Forall is_int32 data.
Proof.
  destruct (program_writes_well_shaped_files ∅
              [Call CStartRecord; Tick word_bus_a; Tick timeout_bus;
               Call CStopRecord])
    as (_ & _ & Hd).
  assert (Hl : disk (run [Call CStartRecord; Tick word_bus_a; Tick timeout_bus;
                          Call CStopRecord] (initial_world ∅)) !! "raw_000.npy" =
               Some (stored [leader_frame word_bus_a; leader_frame timeout_bus]))
    by (vm_compute; reflexivity).
  destruct (Hd _ _ Hl) as [H | (_ & r & data & Heq & Hr & Hlen & Hi)].
  - by rewrite lookup_empty in H.
  - exists r, data. rewrite Hl, Heq. done.
Defined.

(** ** Shutdown *)

Lemma loop_iteration_stopped (b : bus) (w : world) :
  running (g w) = false -> loop_iteration b w = (Ret tt, w, []).
Proof. intros H. unfold loop_iteration. run_monad. by rewrite H. Qed.

Lemma robot_loop_stopped (bs : list bus) (w : world) :
  running (g w) = false -> robot_loop bs w = (Ret tt, w, []).
Proof.
  intros H. destruct bs as [|b bs]; [done|].
  cbn [robot_loop]. run_monad. by rewrite H.
Qed.

Lemma step_running_false (a : action) (w : world) :
  running (g w) = false -> running (g (world_of (step a w))) = false.
Proof.
  intros H. destruct a as [b | [| | bs |]];
    try (rewrite step_running by discriminate; done).
  cbn [step run_command]. by rewrite quit_all_spec.
Qed.

Lemma run_running_false (sched : list action) :
  forall w, running (g w) = false -> running (g (run sched w)) = false.
Proof.
  induction sched as [|a sched IH]; intros w H; [done|].
  cbn [run]. by apply IH, step_running_false.
Qed.

(** X9: [quit_all()] stops the loop for good.  After it, whatever
    callbacks and loop iterations follow, [running] stays false, and a
    loop iteration, or the whole [robot_loop()], issues no bus
    transaction, does not sleep and changes nothing.  [quit_all()] itself
    changes no global but [running], and no file. *)
Theorem quit_all_stops_the_loop (w : world) (sched : list action)
    (b : bus) (bs : list bus) :
  let w1 := world_of (quit_all w) in
  let w2 := run sched w1 in
  w1 = {| g := set_running false (g w); disk := disk w |} /\
  running (g w2) = false /\
  loop_iteration b w2 = (Ret tt, w2, []) /\
  robot_loop bs w2 = (Ret tt, w2, []).
Proof.
  intros w1 w2. split; [reflexivity|].
  assert (H : running (g w2) = false) by (by apply run_running_false).
  split; [exact H|]. split.
  - by apply loop_iteration_stopped.
  - by apply robot_loop_stopped.
Qed.

Lemma quit_all_stops_the_loop_witness :
  robot_loop [word_bus_a; timeout_bus]
    (run [Call CStartRecord; Tick word_bus_a]
       (world_of (quit_all recording_world))) =
  (Ret tt,
   run [Call CStartRecord; Tick word_bus_a] (world_of (quit_all recording_world)),
   []).
Proof.
  apply (quit_all_stops_the_loop recording_world
           [Call CStartRecord; Tick word_bus_a] quiet_bus
           [word_bus_a; timeout_bus]).
Defined.

(** ** Failures inside the callbacks *)

Lemma stop_record_save_raises (w : world) (T : list (list Z)) (a : file)
    (e : exn) :
  recording (g w) = true ->
  buffer (g w) = T ->
  T <> [] ->
  np_array_int32 T = Ret a ->
  np_save (disk w) (save_path (g w)) a = Raise e ->
  stop_record w =
    (Raise e,
     {| g := set_mode TELEOP (set_recording false (g w)); disk := disk w |},
     [StatusSet "IDLE"]).
Proof.
  intros Hrec Hbuf Hne Ha Hs. destruct T as [|q buf]; [done|].
  unfold stop_record. run_monad. rewrite Hrec. cbn. rewrite Hbuf. cbn.
  rewrite Ha. cbn. rewrite Hs. reflexivity.
Qed.

(** X10: when [next_path()] raises inside [start_record()], the callback
    ends without status or log, but the recording is on: mode RECORD,
    flag set, buffer emptied, [save_path] still the one of the previous
    recording.  The ticks that follow are recorded, and the next
    [stop_record()] stores them under that old path, replacing the file
    of the previous recording; with no previous path, [np.save] raises,
    no file is written and the frames stay in the buffer. *)
Theorem failed_start_record_reuses_save_path (w : world) (bs : list bus)
    (e : exn) :
  recording (g w) = false ->
  next_path (disk w) = Raise e ->
  bs <> [] ->
  let w1 := world_of (start_record w) in
  let w2 := world_of (ticks bs w1) in
  start_record w = (Raise e, w1, []) /\
  g w1 = {| running := running (g w); mode := RECORD; recording := true;
            buffer := []; save_path := save_path (g w);
            last_saved := last_saved (g w) |} /\
  buffer (g w2) = leader_frame <$> bs /\
  (forall p f, save_path (g w) = Some p -> in_record_dir p = Some f ->
     endswith ".npy" f = true ->
     result_of (stop_record w2) = Ret tt /\
     disk (world_of (stop_record w2)) =
       <[f := Npy (length bs) NUM_JOINTS
                (int32 <$> concat (leader_frame <$> bs))]> (disk w) /\
     last_saved (g (world_of (stop_record w2))) = Some p) /\
  (save_path (g w) = None ->
     result_of (stop_record w2) = Raise TypeError /\
     disk (world_of (stop_record w2)) = disk w /\
     buffer (g (world_of (stop_record w2))) = leader_frame <$> bs /\
     recording (g (world_of (stop_record w2))) = false).
Proof.
  intros Hrec Hnext Hbs. cbv zeta.
  rewrite (start_record_raise w e Hrec Hnext). unfold world_of, result_of.
  cbn [fst snd].
  rewrite ticks_recording_trace by reflexivity.
  cbn [fst snd g disk buffer set_buffer app].
  split; [reflexivity|]. split; [reflexivity|]. split; [reflexivity|].
  assert (Hne : leader_frame <$> bs <> []) by (by destruct bs).
  pose proof (np_array_int32_frames _ Hne (length_leader_frames bs)) as Ha.
  split.
  - intros p f Hp Hf Hext.
    erewrite (stop_record_saves_buffer _ (leader_frame <$> bs));
      [| reflexivity | reflexivity | exact Hne | exact Ha
       | cbn [g disk save_path set_buffer set_recording set_mode];
         rewrite Hp; unfold np_save; rewrite Hf, Hext; reflexivity ].
    cbn. rewrite Hp. unfold stored. by rewrite length_fmap.
  - intros Hp.
    erewrite (stop_record_save_raises _ (leader_frame <$> bs));
      [| reflexivity | reflexivity | exact Hne | exact Ha
       | cbn [g disk save_path set_buffer set_recording set_mode];
         rewrite Hp; reflexivity ].
    cbn. done.
Qed.

Lemma failed_start_record_reuses_save_path_witness :
  start_record stale_path_world =
    (Raise ValueError, world_of (start_record stale_path_world), []) /\
  disk (world_of (stop_record
                    (world_of (ticks [word_bus_a]
                                 (world_of (start_record stale_path_world))))))
  = <["raw_000.npy" :=
        Npy 1 NUM_JOINTS (int32 <$> concat (leader_frame <$> [word_bus_a]))]>
      (disk stale_path_world).
Proof.
  destruct (failed_start_record_reuses_save_path stale_path_world [word_bus_a]
              ValueError)
    as (H1 & _ & _ & H2 & _);
    [reflexivity | vm_compute; reflexivity | discriminate |].
  split; [exact H1|].
  destruct (H2 "records/raw_000.npy" "raw_000.npy") as (_ & Hd & _);
    [reflexivity | reflexivity | reflexivity |].
  exact Hd.
Defined.

Lemma replay_target_exists (w : world) (p : string) :
  replay_target w p -> os_path_exists (disk w) p = true.
Proof.
  intros [_ H | _ H]; [exact H|].
  destruct (persisted_files_Some _ _ H) as (f & -> & Hf & _).
  rewrite os_path_exists_join. by apply bool_decide_eq_true.
Qed.

Lemma replay_raise (bs : nat -> bus) (w : world) (p : string) (e : exn) :
  recording (g w) = false ->
  replay_target w p ->
  np_load (disk w) p = Raise e ->
  replay bs w =
    (Raise e, {| g := set_last_saved (Some p) (g w); disk := disk w |}, []).
Proof.
  intros Hrec Ht Hload. rewrite (replay_not_recording bs w Hrec).
  rewrite (replay_body_target bs w p Ht). cbn zeta.
  by rewrite (replay_play_raise bs _ p e).
Qed.

(** X11: when [np.load] raises on the target of [replay()], the callback
    ends there: no status, no log, no follower write, the mode and the
    files as before, and [last_saved] left on that target.  The fallback
    takes the last entry named [raw_...] whether or not it ends in
    [.npy], and once [last_saved] is on an unreadable entry every later
    [replay()] raises in the same way. *)
Theorem replay_load_failure_sticks (bs : nat -> bus) (w : world) (p : string)
    (e : exn) :
  recording (g w) = false ->
  replay_target w p ->
  np_load (disk w) p = Raise e ->
  let w1 := {| g := set_last_saved (Some p) (g w); disk := disk w |} in
  replay bs w = (Raise e, w1, []) /\
  mode (g w1) = mode (g w) /\
  forall bss : list (nat -> bus),
    replays bss w1 = w1 /\
    forall bs', replay bs' (replays bss w1) = (Raise e, w1, []).
Proof.
  intros Hrec Ht Hload w1.
  split; [by apply replay_raise|]. split; [reflexivity|].
  assert (Ht1 : replay_target w1 p).
  { apply target_last_saved; [reflexivity|].
    exact (replay_target_exists w p Ht). }
  assert (Hstep : forall bs', replay bs' w1 = (Raise e, w1, [])).
  { intros bs'. rewrite (replay_raise bs' w1 p e); [| exact Hrec | exact Ht1
                                                      | exact Hload].
    subst w1. reflexivity. }
  assert (Hall : forall bss, replays bss w1 = w1).
  { induction bss as [|b0 bss IH]; [reflexivity|].
    unfold replays in *. cbn [foldl]. rewrite Hstep. exact IH. }
  intros bss. split; [apply Hall|]. intros bs'. by rewrite Hall.
Qed.

Lemma replay_load_failure_sticks_witness :
  replay (fun _ => quiet_bus) notes_world =
    (Raise OSError,
     {| g := set_last_saved (Some "records/raw_notes.txt") (g notes_world);
        disk := disk notes_world |}, []).
Proof.
  destruct (replay_load_failure_sticks (fun _ => quiet_bus) notes_world
              "records/raw_notes.txt" OSError)
    as (H & _);
    [ reflexivity
    | apply target_fallback; [left; reflexivity | vm_compute; reflexivity]
    | vm_compute; reflexivity | ].
  exact H.
Defined.

(** ** What the directory scans look at *)

Lemma sorted_Permutation (l l' : list string) : l ≡ₚ l' -> sorted l = sorted l'.
Proof.
  intros H. unfold sorted. apply (Sorted_unique String.le).
  - apply Sorted_merge_sort. apply _.
  - apply Sorted_merge_sort. apply _.
  - by rewrite !merge_sort_Permutation.
Qed.

Lemma filter_listdir_Permutation (keep : string -> bool) (d d' : records) :
  (forall f, keep f = true -> (f ∈ dom d <-> f ∈ dom d')) ->
  List.filter keep (os_listdir d) ≡ₚ List.filter keep (os_listdir d').
Proof.
  intros H. apply NoDup_Permutation.
  - apply NoDup_ListNoDup, List.NoDup_filter, NoDup_ListNoDup.
    apply (NoDup_elements (dom d)).
  - apply NoDup_ListNoDup, List.NoDup_filter, NoDup_ListNoDup.
    apply (NoDup_elements (dom d')).
  - intros f. rewrite !elem_of_List_filter, !elem_of_os_listdir.
    split; intros [Hf Hk]; (split; [by apply (H f Hk) | done]).
Qed.

(** X12: [next_path()] looks only at the names that start with [raw_]
    and end with [.npy], and the fallback of [replay()] only at the names
    that start with [raw_]: two directories with the same such names give
    the same result, whatever the files hold and whatever else is there.
    In particular a file that [next_path()] does not count never changes
    the next path. *)
Theorem scans_depend_on_names_only (d d' : records) :
  ((forall f, startswith "raw_" f && endswith ".npy" f = true ->
              (f ∈ dom d <-> f ∈ dom d')) ->
   next_path d = next_path d') /\
  ((forall f, startswith "raw_" f = true -> (f ∈ dom d <-> f ∈ dom d')) ->
   persisted_files d = persisted_files d') /\
  (forall f x, startswith "raw_" f && endswith ".npy" f = false ->
               next_path (<[f := x]> d) = next_path d).
Proof.
  assert (H1 : forall d1 d2 : records,
             (forall f, startswith "raw_" f && endswith ".npy" f = true ->
                        (f ∈ dom d1 <-> f ∈ dom d2)) ->
             next_path d1 = next_path d2).
  { intros d1 d2 H. unfold next_path.
    by rewrite (sorted_Permutation _ _ (filter_listdir_Permutation _ d1 d2 H)). }
  split; [apply H1|]. split.
  - intros H. unfold persisted_files. apply sorted_Permutation.
    apply fmap_Permutation. by apply filter_listdir_Permutation.
  - intros f x Hf. apply H1. intros f' Hf'. rewrite dom_insert_L.
    assert (f' <> f) by (intros ->; congruence).
    rewrite elem_of_union, elem_of_singleton.
    split; [intros [Heq | Hin]; [done | exact Hin] | by right].
Qed.

Lemma scans_depend_on_names_only_witness :
  next_path (<["notes.txt" := Unreadable]> (disk two_files_world)) =
    next_path (disk two_files_world).
Proof.
  destruct (scans_depend_on_names_only (disk two_files_world) ∅) as (_ & _ & H).
  apply H. reflexivity.
Defined.

(** ** The fallback target and the naming *)

Lemma compare_append (pre a b : string) :
  String.compare (pre +:+ a) (pre +:+ b) = String.compare a b.
Proof.
  induction pre as [|c pre IH]; [reflexivity|].
  change (String c pre +:+ a) with (String c (pre +:+ a)).
  change (String c pre +:+ b) with (String c (pre +:+ b)).
  cbn [String.compare].
  assert (Hc : Ascii.compare c c = Eq)
    by (unfold Ascii.compare; apply N.compare_refl).
  by rewrite Hc.
Qed.

Lemma le_os_path_join (a b : string) :
  String.le (os_path_join RECORD_DIR a) (os_path_join RECORD_DIR b) <->
  String.le a b.
Proof.
  unfold os_path_join.
  rewrite <- !(append_assoc RECORD_DIR "/").
  unfold String.le, String.leb. by rewrite compare_append.
Qed.

(** X13: in a directory whose [raw_...] entries are all recordings with
    a three-digit index, at least one of them, the fallback of
    [replay()] is the recording with the highest index, the one right
    before the index [next_path()] gives next. *)
Theorem fallback_is_latest_recording (d : records) (i : nat) :
  only_recordings d ->
  (i < 1000)%nat ->
  raw_file i ∈ dom d ->
  exists m,
    last (persisted_files d) = Some (os_path_join RECORD_DIR (raw_file m)) /\
    raw_file m ∈ dom d /\
    (forall j, (j < 1000)%nat -> raw_file j ∈ dom d -> (j <= m)%nat) /\
    next_path d = Ret (os_path_join RECORD_DIR (raw_file (S m))).
Proof.
  intros Hd Hi Hin.
  assert (H3 : three_digit_names d) by (intros f Hf Hs _; by apply Hd).
  destruct (last (persisted_files d)) as [p|] eqn:Hlast.
  - destruct (persisted_files_Some d p Hlast) as (f & -> & Hf & Hraw & Hmax).
    destruct (Hd f Hf Hraw) as (m & Hm & ->).
    assert (Hle : forall j, (j < 1000)%nat -> raw_file j ∈ dom d -> (j <= m)%nat).
    { intros j Hj Hjin. apply raw_file_le_inv; [done | done |].
      apply (proj1 (le_os_path_join (raw_file j) (raw_file m))).
      apply Hmax; [done|]. by apply raw_file_facts. }
    exists m. split; [done|]. split; [done|]. split; [done|].
    destruct (next_path_three_digit d H3) as [-> _]. do 3 f_equal.
    apply next_after_max.
    + apply list_elem_of_In, in_seq. lia.
    + by apply bool_decide_eq_true.
    + intros j Hj Hu. apply list_elem_of_In, in_seq in Hj.
      apply bool_decide_eq_true in Hu. apply Hle; [lia | done].
  - exfalso. unfold persisted_files in Hlast. apply last_sorted_None in Hlast.
    apply fmap_nil_inv in Hlast.
    assert (Hx : raw_file i ∈ List.filter (fun f => startswith "raw_" f)
                                (os_listdir d)).
    { apply elem_of_List_filter. split; [by apply elem_of_os_listdir|].
      by apply raw_file_facts. }
    rewrite Hlast in Hx. by apply elem_of_nil in Hx.
Qed.

Lemma two_files_only_recordings : only_recordings (disk two_files_world).
Proof.
  intros f Hf Hs. unfold two_files_world in Hf. cbn [disk] in Hf.
  rewrite dom_insert_L, dom_singleton_L in Hf.
  rewrite elem_of_union, !elem_of_singleton in Hf.
  destruct Hf as [-> | ->].
  - exists 0%nat. split; [lia | reflexivity].
  - exists 1%nat. split; [lia | reflexivity].
Defined.

Lemma fallback_is_latest_recording_witness :
  exists m,
    last (persisted_files (disk two_files_world)) =
      Some (os_path_join RECORD_DIR (raw_file m)) /\
    raw_file m ∈ dom (disk two_files_world) /\
    (forall j, (j < 1000)%nat -> raw_file j ∈ dom (disk two_files_world) ->
               (j <= m)%nat) /\
    next_path (disk two_files_world) =
      Ret (os_path_join RECORD_DIR (raw_file (S m))).
Proof.
  apply (fallback_is_latest_recording (disk two_files_world) 0).
  - exact two_files_only_recordings.
  - lia.
  - apply elem_of_dom. by eexists.
Defined.

(** X14: once [raw_999.npy] exists and no counted name sorts after it,
    [next_path()] gives [raw_1000.npy], and it does so again after that
    file is written: every further recording is saved over
    [raw_1000.npy], each one replacing the one before. *)
Theorem recordings_after_999_overwrite (bs : list bus) (w : world) :
  bs <> [] ->
  recording (g w) = false ->
  "raw_999.npy" ∈ dom (disk w) ->
  (forall f, f ∈ dom (disk w) ->
     startswith "raw_" f && endswith ".npy" f = true ->
     String.le f "raw_999.npy") ->
  let w1 := world_of (record_once bs w) in
  next_path (disk w) = Ret "records/raw_1000.npy" /\
  disk w1 =
    <["raw_1000.npy" :=
        Npy (length bs) NUM_JOINTS (int32 <$> concat (leader_frame <$> bs))]>
      (disk w) /\
  recording (g w1) = false /\
  "raw_999.npy" ∈ dom (disk w1) /\
  (forall f, f ∈ dom (disk w1) ->
     startswith "raw_" f && endswith ".npy" f = true ->
     String.le f "raw_999.npy") /\
  next_path (disk w1) = Ret "records/raw_1000.npy".
Proof.
  intros Hbs Hrec H999 Hmax.
  assert (Hnext : forall d : records,
             "raw_999.npy" ∈ dom d ->
             (forall f, f ∈ dom d ->
                startswith "raw_" f && endswith ".npy" f = true ->
                String.le f "raw_999.npy") ->
             next_path d = Ret "records/raw_1000.npy").
  { intros d Hin Hle. unfold next_path.
    destruct (last (sorted _)) as [f|] eqn:Hlast.
    - apply last_sorted_Some in Hlast as [Hf Hm].
      apply elem_of_List_filter in Hf as [Hf Hc].
      apply elem_of_os_listdir in Hf.
      assert (f = "raw_999.npy") as ->.
      { apply (anti_symm String.le); [by apply Hle|].
        apply Hm, elem_of_List_filter. split; [by apply elem_of_os_listdir|].
        reflexivity. }
      reflexivity.
    - apply last_sorted_None in Hlast.
      assert (Hx : "raw_999.npy" ∈
                   List.filter (fun f => startswith "raw_" f && endswith ".npy" f)
                     (os_listdir d)).
      { apply elem_of_List_filter. split; [by apply elem_of_os_listdir|].
        reflexivity. }
      rewrite Hlast in Hx. by apply elem_of_nil in Hx. }
  pose proof (Hnext (disk w) H999 Hmax) as Hn.
  destruct (recording_stores_one_row_per_tick bs w "raw_1000.npy" Hbs Hrec Hn
              eq_refl) as (_ & Hd & Hg & _).
  cbv zeta. rewrite Hd, Hg. cbn [recording].
  assert (H999' : "raw_999.npy" ∈ dom (<["raw_1000.npy" :=
             Npy (length bs) NUM_JOINTS
               (int32 <$> concat (leader_frame <$> bs))]> (disk w))).
  { rewrite dom_insert_L, elem_of_union. by right. }
  assert (Hmax' : forall f, f ∈ dom (<["raw_1000.npy" :=
             Npy (length bs) NUM_JOINTS
               (int32 <$> concat (leader_frame <$> bs))]> (disk w)) ->
             startswith "raw_" f && endswith ".npy" f = true ->
             String.le f "raw_999.npy").
  { intros f Hf Hc. rewrite dom_insert_L, elem_of_union, elem_of_singleton in Hf.
    destruct Hf as [-> | Hf]; [reflexivity | by apply Hmax]. }
  split; [exact Hn|]. split; [reflexivity|]. split; [reflexivity|].
  split; [exact H999'|]. split; [exact Hmax'|]. by apply Hnext.
Qed.

Lemma recordings_after_999_overwrite_witness :
  next_path (disk last_index_world) = Ret "records/raw_1000.npy" /\
  next_path (disk (world_of (record_once [word_bus_a] last_index_world))) =
    Ret "records/raw_1000.npy".
Proof.
  destruct (recordings_after_999_overwrite [word_bus_a] last_index_world)
    as (H1 & _ & _ & _ & _ & H2).
  - discriminate.
  - reflexivity.
  - apply elem_of_dom. by eexists.
  - intros f Hf _. cbn [last_index_world disk] in Hf.
    rewrite dom_singleton_L, elem_of_singleton in Hf. by subst f.
  - split; [exact H1 | exact H2].
Defined.

(** X15: [stop_record()] always leaves the recording flag down, also
    when [np.save] raises, so a second [stop_record()] in a row does
    nothing and logs nothing; and [start_record()] right after it starts
    a recording again. *)
Theorem stop_record_twice (w : world) :
  recording (g (world_of (stop_record w))) = false /\
  stop_record (world_of (stop_record w)) =
    (Ret tt, world_of (stop_record w), []) /\
  recording (g (world_of (start_record (world_of (stop_record w))))) = true.
Proof.
  assert (H : recording (g (world_of (stop_record w))) = false).
  { destruct (stop_record_cases w) as (_ & [[-> H] | [_ H]]); exact H. }
  split; [exact H|]. split; [by apply stop_record_idle|].
  destruct (start_record_cases (world_of (stop_record w)))
    as (_ & _ & _ & [[_ H'] | [_ H']]); [congruence | exact H'].
Qed.
